(** * Planner: priority reordering of routine items

    Shallow embedding of [RoutineItem.save] and [RoutineItem.delete] from
    [backend/apps/daily/models/model_routine.py], over a relational table
    keyed by primary key, and the properties of the per-routine priority
    sequence they maintain.

    Modelling choices:
    - the [RoutineItem] table is a finite map from primary key to the row's
      columns; a foreign key to [Routine] is the routine's primary key;
    - priorities are Python/SQL integers ([Z]); a nullable column is an
      [option];
    - an exception raised inside [transaction.atomic()] rolls the block
      back: the operation returns [Raised e] and the table the caller holds
      is the one from before the call;
    - [created_at] / [updated_at] (wall-clock columns) are left out;
    - titles are ASCII strings: [str.strip] and [str.title] are embedded for
      the ASCII range;
    - the store's own column checks (the range of a positive integer
      column, the existence of the referenced routine) are the store's and
      are not part of the embedding. *)

From Stdlib Require Import ZArith String Ascii Lia.
From stdpp Require Import gmap fin_maps list option.

Local Open Scope Z_scope.

(** ** Python string helpers used by [save] (ASCII range) *)

Definition is_space (c : ascii) : bool :=
  let n := nat_of_ascii c in
  ((9 <=? n) && (n <=? 13) || (28 <=? n) && (n <=? 32))%nat.

Definition is_upper (c : ascii) : bool :=
  let n := nat_of_ascii c in ((65 <=? n) && (n <=? 90))%nat.

Definition is_lower (c : ascii) : bool :=
  let n := nat_of_ascii c in ((97 <=? n) && (n <=? 122))%nat.

Definition to_upper (c : ascii) : ascii :=
  if is_lower c then ascii_of_nat (nat_of_ascii c - 32) else c.

Definition to_lower (c : ascii) : ascii :=
  if is_upper c then ascii_of_nat (nat_of_ascii c + 32) else c.

Fixpoint lstrip (s : string) : string :=
  match s with
  | String c s' => if is_space c then lstrip s' else s
  | EmptyString => EmptyString
  end.

(** [rstrip] drops the trailing run of white space. *)
Fixpoint rstrip (s : string) : string :=
  match s with
  | String c s' =>
      match rstrip s' with
      | EmptyString => if is_space c then EmptyString else String c EmptyString
      | r => String c r
      end
  | EmptyString => EmptyString
  end.

(** [str.strip()] *)
Definition str_strip (s : string) : string := rstrip (lstrip s).

(** [str.title()]: a cased character is upper-cased when the previous
    character is not cased, lower-cased otherwise. *)
Fixpoint title_from (prev_cased : bool) (s : string) : string :=
  match s with
  | String c s' =>
      if is_upper c || is_lower c
      then String (if prev_cased then to_lower c else to_upper c) (title_from true s')
      else String c (title_from false s')
  | EmptyString => EmptyString
  end.

Definition str_title (s : string) : string := title_from false s.

(** ** Data model *)

(** The columns of a [RoutineItem] row. *)
Record Columns := mkColumns {
  routine : Z;
  title : string;
  description : option string;
  is_active : bool;
  priority : option Z
}.

(** A [RoutineItem] instance in memory: [pk] is [None] until the first save. *)
Record RoutineItem := mkItem {
  pk : option Z;
  cols : Columns
}.

Definition set_priority (p : option Z) (c : Columns) : Columns :=
  {| routine := routine c; title := title c; description := description c;
     is_active := is_active c; priority := p |}.

Definition set_title (s : string) (c : Columns) : Columns :=
  {| routine := routine c; title := s; description := description c;
     is_active := is_active c; priority := priority c |}.

Definition with_cols (c : Columns) (self : RoutineItem) : RoutineItem :=
  {| pk := pk self; cols := c |}.

(** The table [daily_routineitem]. *)
Abbreviation Table := (gmap Z Columns).

(** Exceptions the two methods can raise. *)
Inductive exn :=
| NoneQueryValue      (* ValueError: Cannot use None as a query value *)
| NoneComparison      (* TypeError: '<' not supported between int and NoneType *)
| DeleteUnsaved.      (* deleting an instance whose pk is None *)

Inductive outcome (A : Type) :=
| Committed (a : A)
| Raised (e : exn).
Arguments Committed {A} a.
Arguments Raised {A} e.

#[global] Instance outcome_bind : MBind outcome := λ A B k m,
  match m with
  | Committed a => k a
  | Raised e => Raised e
  end.

(** ** The query set operations the methods use *)

(** A lookup [priority__gt=v] and the like: building it with [v = None]
    raises; a row whose priority is NULL satisfies none of them. *)
Definition query_value (v : option Z) : outcome Z :=
  match v with
  | Some p => Committed p
  | None => Raised NoneQueryValue
  end.

Definition routine_is (R : Z) (c : Columns) : bool := bool_decide (routine c = R).

Definition priority_gte (P : Z) (c : Columns) : bool :=
  match priority c with Some p => bool_decide (P ≤ p) | None => false end.

Definition priority_gt (P : Z) (c : Columns) : bool :=
  match priority c with Some p => bool_decide (P < p) | None => false end.

Definition priority_lt (P : Z) (c : Columns) : bool :=
  match priority c with Some p => bool_decide (p < P) | None => false end.

Definition priority_lte (P : Z) (c : Columns) : bool :=
  match priority c with Some p => bool_decide (p ≤ P) | None => false end.

(** [F('priority') + d] *)
Definition shift (d : Z) (c : Columns) : Columns :=
  set_priority ((λ p, p + d) <$> priority c) c.

(** [.filter(sel).update(priority=F('priority') + d)] *)
Definition filter_update (sel : Columns → bool) (d : Z) (t : Table) : Table :=
  (λ c, if sel c then shift d c else c) <$> t.

Definition max_opt (a b : option Z) : option Z :=
  match a, b with
  | Some x, Some y => Some (Z.max x y)
  | Some x, None => Some x
  | None, _ => b
  end.

Definition max_of_rows (sel : Columns → bool) (l : list Columns) : option Z :=
  foldr (λ c acc, if sel c then max_opt (priority c) acc else acc) None l.

(** [.filter(sel).aggregate(Max('priority'))['priority__max']]: NULLs are
    skipped, and the result is [None] when no row contributes. *)
Definition aggregate_max (sel : Columns → bool) (t : Table) : option Z :=
  max_of_rows sel (map_to_list t).*2.

(** Python's [(max_p or 0)]. *)
Definition or_zero (v : option Z) : Z :=
  match v with
  | Some m => if bool_decide (m = 0) then 0 else m
  | None => 0
  end.

(** The key the store gives a new row: one more than the largest key in
    use (the allocator is the store's; only its freshness is used). *)
Definition next_pk (t : Table) : Z :=
  foldr Z.max 0 (map_to_list t).*1 + 1.

(** [models.Model.save]: a row write. With a [pk], the row of that key is
    updated, or inserted when there is none; without, a new row is
    inserted and the instance learns its key. *)
Definition Model_save (self : RoutineItem) (t : Table) : Table * RoutineItem :=
  match pk self with
  | Some k => (<[k := cols self]> t, self)
  | None =>
      let k := next_pk t in
      (<[k := cols self]> t, {| pk := Some k; cols := cols self |})
  end.

(** [models.Model.delete] *)
Definition Model_delete (self : RoutineItem) (t : Table) : outcome Table :=
  match pk self with
  | Some k => Committed (delete k t)
  | None => Raised DeleteUnsaved
  end.

(** ** [RoutineItem.save] *)

Definition normalize_title (self : RoutineItem) : RoutineItem :=
  if bool_decide (title (cols self) = EmptyString) then self
  else with_cols (set_title (str_title (str_strip (title (cols self)))) (cols self)) self.

Definition RoutineItem_save (self : RoutineItem) (t : Table)
  : outcome (Table * RoutineItem) :=
  let self := normalize_title self in
  match pk self with
  | None =>
      (* create new item *)
      match priority (cols self) with
      | None =>
          let max_p := aggregate_max (routine_is (routine (cols self))) t in
          let self := with_cols (set_priority (Some (or_zero max_p + 1)) (cols self)) self in
          Committed (Model_save self t)
      | Some P =>
          let t := filter_update
                     (λ c, routine_is (routine (cols self)) c && priority_gte P c) 1 t in
          Committed (Model_save self t)
      end
  | Some k =>
      (* update existing item *)
      match t !! k with
      | None =>
          (* DoesNotExist: plain write *)
          Committed (Model_save self t)
      | Some old_instance =>
          if bool_decide (routine old_instance ≠ routine (cols self)) then
            (* 1. changing routines; step A: close the gap in the old routine *)
            old_p ← query_value (priority old_instance);
            let t := filter_update
                       (λ c, routine_is (routine old_instance) c && priority_gt old_p c)
                       (-1) t in
            (* step B: placement in the new routine *)
            match priority (cols self) with
            | None =>
                let max_p := aggregate_max (routine_is (routine (cols self))) t in
                let self :=
                  with_cols (set_priority (Some (or_zero max_p + 1)) (cols self)) self in
                Committed (Model_save self t)
            | Some P =>
                let t := filter_update
                           (λ c, routine_is (routine (cols self)) c && priority_gte P c)
                           1 t in
                Committed (Model_save self t)
            end
          else if bool_decide (priority old_instance ≠ priority (cols self)) then
            (* 2. reordering within the same routine *)
            let new_p :=
              match priority (cols self) with
              | None =>
                  or_zero (aggregate_max (routine_is (routine (cols self))) t) + 1
              | Some p => p
              end in
            let self := with_cols (set_priority (Some new_p) (cols self)) self in
            match priority old_instance with
            | None => Raised NoneComparison
            | Some old_p =>
                let t :=
                  if bool_decide (new_p < old_p) then
                    (* moving up *)
                    filter_update
                      (λ c, routine_is (routine (cols self)) c
                            && priority_gte new_p c && priority_lt old_p c)
                      1 t
                  else
                    (* moving down *)
                    filter_update
                      (λ c, routine_is (routine (cols self)) c
                            && priority_gt old_p c && priority_lte new_p c)
                      (-1) t in
                Committed (Model_save self t)
            end
          else
            Committed (Model_save self t)
      end
  end.

(** ** [RoutineItem.delete] *)

Definition RoutineItem_delete (self : RoutineItem) (t : Table) : outcome Table :=
  let current_priority := priority (cols self) in
  let current_routine := routine (cols self) in
  t ← Model_delete self t;
  p ← query_value current_priority;
  Committed (filter_update
               (λ c, routine_is current_routine c && priority_gt p c) (-1) t).

(** ** The dense-ordering invariant *)

(** The rows of routine [R]. *)
Definition items_of (R : Z) (t : Table) : Table :=
  filter (λ kc, routine kc.2 = R) t.

(** [count(R)]: the number of items of routine [R]. *)
Definition count (R : Z) (t : Table) : Z := Z.of_nat (size (items_of R t)).

Definition priority_in (lo hi : Z) (c : Columns) : Prop :=
  ∃ p, priority c = Some p ∧ lo ≤ p ≤ hi.

#[global] Instance priority_in_dec lo hi c : Decision (priority_in lo hi c).
Proof.
  unfold priority_in. destruct (priority c) as [p|].
  - destruct (decide (lo ≤ p ≤ hi)) as [H|H].
    + left. by exists p.
    + right. intros (q & [= <-] & ?). done.
  - right. by intros (q & [=] & ?).
Defined.

(** Routine [R] has an item at priority [p]. *)
Definition has_item_at (R : Z) (t : Table) (p : Z) : Prop :=
  map_Exists (λ _ c, routine c = R ∧ priority c = Some p) t.

(** The priorities of the items of [R] are exactly [1..n], each once. *)
Record dense_upto (R : Z) (t : Table) (n : Z) : Prop := mkDense {
  dense_range : ∀ k c, t !! k = Some c → routine c = R → priority_in 1 n c;
  dense_unique : ∀ k1 c1, t !! k1 = Some c1 → ∀ k2 c2, t !! k2 = Some c2 →
                 routine c1 = R → routine c2 = R →
                 priority c1 = priority c2 → k1 = k2;
  dense_full : ∀ p, 1 ≤ p ≤ n → has_item_at R t p
}.

(** The invariant: the priorities of [R] are exactly [1..count(R)], with no
    duplicates. *)
Definition dense (R : Z) (t : Table) : Prop := dense_upto R t (count R t).

#[global] Instance dense_upto_dec R t n : Decision (dense_upto R t n).
Proof.
  refine (cast_if_and3
    (decide (map_Forall (λ _ c, routine c = R → priority_in 1 n c) t))
    (decide (map_Forall (λ k1 c1, map_Forall (λ k2 c2,
       routine c1 = R → routine c2 = R → priority c1 = priority c2 → k1 = k2) t) t))
    (decide (Forall (has_item_at R t) (seqZ 1 n)))).
  - split; [assumption..|]. intros p Hp.
    eapply list.Forall_forall; [eassumption|]. apply elem_of_seqZ. lia.
  - intros [H1 H2 H3]. apply n0, list.Forall_forall. intros p Hp.
    apply H3. apply elem_of_seqZ in Hp. lia.
  - intros [H1 H2 H3]. apply n0. exact H2.
  - intros [H1 H2 H3]. apply n0. exact H1.
Defined.

#[global] Instance dense_dec R t : Decision (dense R t) := dense_upto_dec R t _.

(** The view of routine [R]: for each key, the priority column of the row
    there when it belongs to [R]. The invariant only depends on it. *)
Definition slot (R : Z) (t : Table) (k : Z) : option (option Z) :=
  match t !! k with
  | Some c => if decide (routine c = R) then Some (priority c) else None
  | None => None
  end.

Record dense_slots (V : Z → option (option Z)) (n : Z) : Prop := mkSlots {
  ds_range : ∀ k o, V k = Some o → ∃ p, o = Some p ∧ 1 ≤ p ≤ n;
  ds_unique : ∀ k1 k2 o, V k1 = Some o → V k2 = Some o → k1 = k2;
  ds_full : ∀ p, 1 ≤ p ≤ n → ∃ k, V k = Some (Some p)
}.

(** Renumbering around an opened slot [P] and around a closed slot [P]. *)
Definition bump (P p : Z) : Z := if decide (P ≤ p) then p + 1 else p.
Definition unbump (P p : Z) : Z := if decide (P < p) then p - 1 else p.

Definition renumber (f : Z → Z) (v : option (option Z)) : option (option Z) :=
  match v with
  | Some (Some p) => Some (Some (f p))
  | _ => v
  end.

(** [m] is the largest priority among the items of [R]. *)
Definition is_max_priority (R : Z) (t : Table) (m : Z) : Prop :=
  has_item_at R t m ∧
  ∀ k c p, t !! k = Some c → routine c = R → priority c = Some p → p ≤ m.

(** Priority in the half-open ranges [[lo, hi)] and [(lo, hi]]. *)
Definition priority_in_co (lo hi : Z) (c : Columns) : Prop :=
  ∃ p, priority c = Some p ∧ lo ≤ p < hi.
Definition priority_in_oc (lo hi : Z) (c : Columns) : Prop :=
  ∃ p, priority c = Some p ∧ lo < p ≤ hi.

#[global] Instance priority_in_co_dec lo hi c : Decision (priority_in_co lo hi c).
Proof.
  unfold priority_in_co. destruct (priority c) as [p|].
  - destruct (decide (lo ≤ p < hi)) as [H|H].
    + left. by exists p.
    + right. intros (q & [= <-] & ?). done.
  - right. by intros (q & [=] & ?).
Defined.

#[global] Instance priority_in_oc_dec lo hi c : Decision (priority_in_oc lo hi c).
Proof.
  unfold priority_in_oc. destruct (priority c) as [p|].
  - destruct (decide (lo < p ≤ hi)) as [H|H].
    + left. by exists p.
    + right. intros (q & [= <-] & ?). done.
  - right. by intros (q & [=] & ?).
Defined.

(** A single write request against the table, and what it leaves there. *)
Inductive request :=
| Save (self : RoutineItem)
| Delete (self : RoutineItem).

Definition run (rq : request) (t : Table) : outcome Table :=
  match rq with
  | Save self => r ← RoutineItem_save self t; Committed r.1
  | Delete self => RoutineItem_delete self t
  end.

(** The requests under which a routine keeps its dense ordering: an explicit
    priority lies within the sequence it is placed in ([1..count+1] when
    the item joins the routine, [1..count] when it stays in it), an update
    or delete is for a stored row that has a priority, a delete is called
    on an instance that agrees with its stored row, and an update that
    keeps the routine gives an explicit priority. *)
Inductive admissible (t : Table) : request → Prop :=
| adm_create self :
    pk self = None →
    (∀ P, priority (cols self) = Some P →
          1 ≤ P ≤ count (routine (cols self)) t + 1) →
    admissible t (Save self)
| adm_move_within self k old P :
    pk self = Some k → t !! k = Some old →
    routine (cols self) = routine old →
    is_Some (priority old) →
    priority (cols self) = Some P → 1 ≤ P ≤ count (routine old) t →
    admissible t (Save self)
| adm_move_across self k old :
    pk self = Some k → t !! k = Some old →
    routine (cols self) ≠ routine old →
    is_Some (priority old) →
    (∀ P, priority (cols self) = Some P →
          1 ≤ P ≤ count (routine (cols self)) t + 1) →
    admissible t (Save self)
| adm_delete self k old :
    pk self = Some k → t !! k = Some old →
    routine (cols self) = routine old →
    priority (cols self) = priority old →
    is_Some (priority old) →
    admissible t (Delete self).

(** ** Example data

    Routine 1 holds A(1), B(2), C(3), D(4); routine 2 holds X(1). *)

Definition item (R : Z) (name : string) (p : Z) : Columns :=
  mkColumns R name None true (Some p).

Definition sample : Table :=
  <[1 := item 1 "A" 1]> (<[2 := item 1 "B" 2]> (<[3 := item 1 "C" 3]>
  (<[4 := item 1 "D" 4]> (<[5 := item 2 "X" 1]> ∅)))).

(** ** [Routine] and its [save]

    The table [daily_routine] with its [unique_together = ['user', 'name']]:
    a write that would leave two rows with the same owner and name is
    refused by the store. *)

Module Routine.

Record Columns := mkColumns {
  user : Z;
  name : string;
  is_active : bool
}.

Record Instance := mkInstance {
  pk : option Z;
  cols : Columns
}.

Inductive outcome (A : Type) :=
| Saved (a : A)
| IntegrityError.
Arguments Saved {A} a.
Arguments IntegrityError {A}.

Definition set_name (s : string) (c : Columns) : Columns :=
  {| user := user c; name := s; is_active := is_active c |}.

(** Another row (a key other than the instance's) with the same owner and
    name. *)
Definition conflicts (self : Instance) (t : gmap Z Columns) : Prop :=
  map_Exists (λ k c, Some k ≠ pk self ∧
                     user c = user (cols self) ∧ name c = name (cols self)) t.

Definition next_pk (t : gmap Z Columns) : Z :=
  foldr Z.max 0 (map_to_list t).*1 + 1.

(** [models.Model.save] on this table. *)
Definition Model_save (self : Instance) (t : gmap Z Columns)
  : outcome (gmap Z Columns * Instance) :=
  if decide (conflicts self t) then IntegrityError
  else match pk self with
       | Some k => Saved (<[k := cols self]> t, self)
       | None =>
           let k := next_pk t in
           Saved (<[k := cols self]> t, {| pk := Some k; cols := cols self |})
       end.

(** [Routine.save] *)
Definition save (self : Instance) (t : gmap Z Columns)
  : outcome (gmap Z Columns * Instance) :=
  let self :=
    if bool_decide (name (cols self) = EmptyString) then self
    else {| pk := pk self;
            cols := set_name (str_title (str_strip (name (cols self)))) (cols self) |} in
  Model_save self t.

End Routine.



(** Lower-casing of a string, to compare names up to letter case. *)
Fixpoint str_lower (s : string) : string :=
  match s with
  | String c s' => String (to_lower c) (str_lower s')
  | EmptyString => EmptyString
  end.

(** The last character of a string. *)
Fixpoint str_last (s : string) : option ascii :=
  match s with
  | String c EmptyString => Some c
  | String _ s' => str_last s'
  | EmptyString => None
  end.

Definition str_head (s : string) : option ascii :=
  match s with
  | String c _ => Some c
  | EmptyString => None
  end.

(** No stored priority is below [b]. *)
Definition priorities_from (b : Z) (t : Table) : Prop :=
  ∀ k c p, t !! k = Some c → priority c = Some p → b ≤ p.

(** A row after a write that at most moved it by one slot: every column but
    the priority is as before. *)
Definition nudged (c c' : Columns) : Prop :=
  c' = c ∨
  ∃ p, priority c = Some p ∧
       (c' = set_priority (Some (p + 1)) c ∨ c' = set_priority (Some (p - 1)) c).

(** * Properties *)

(** ** Elementary facts about the embedding *)

Section elementary.
Implicit Types (t : Table) (c : Columns) (self : RoutineItem).

Lemma pk_normalize_title self : pk (normalize_title self) = pk self.
Proof. unfold normalize_title. by case_bool_decide. Qed.

Lemma routine_normalize_title self :
  routine (cols (normalize_title self)) = routine (cols self).
Proof. unfold normalize_title. by case_bool_decide. Qed.

Lemma priority_normalize_title self :
  priority (cols (normalize_title self)) = priority (cols self).
Proof. unfold normalize_title. by case_bool_decide. Qed.

Lemma description_normalize_title self :
  description (cols (normalize_title self)) = description (cols self).
Proof. unfold normalize_title. by case_bool_decide. Qed.

Lemma is_active_normalize_title self :
  is_active (cols (normalize_title self)) = is_active (cols self).
Proof. unfold normalize_title. by case_bool_decide. Qed.

Lemma lookup_filter_update sel d t k :
  filter_update sel d t !! k = (λ c, if sel c then shift d c else c) <$> t !! k.
Proof. apply lookup_fmap. Qed.

Lemma lookup_filter_update_Some sel d t k c :
  t !! k = Some c →
  filter_update sel d t !! k = Some (if sel c then shift d c else c).
Proof. intros H. by rewrite lookup_filter_update, H. Qed.

Lemma lookup_filter_update_None sel d t k :
  t !! k = None → filter_update sel d t !! k = None.
Proof. intros H. by rewrite lookup_filter_update, H. Qed.

Lemma next_pk_above t k c : t !! k = Some c → k < next_pk t.
Proof.
  intros H. unfold next_pk.
  assert (Hin : k ∈ (map_to_list t).*1).
  { apply list_elem_of_fmap. exists (k, c). split; [done|].
    by apply elem_of_map_to_list. }
  revert Hin. generalize ((map_to_list t).*1). intros l.
  induction l as [|x l IH]; simpl.
  - intros Hin. by apply elem_of_nil in Hin.
  - intros [->|Hin]%elem_of_cons; [lia|]. specialize (IH Hin). lia.
Qed.

Lemma next_pk_fresh t : t !! next_pk t = None.
Proof.
  destruct (t !! next_pk t) as [c|] eqn:H; [|done].
  apply next_pk_above in H. lia.
Qed.

Lemma next_pk_fresh_before sel d t :
  t !! next_pk (filter_update sel d t) = None.
Proof.
  pose proof (next_pk_fresh (filter_update sel d t)) as H.
  revert H. generalize (next_pk (filter_update sel d t)). intros k H.
  rewrite lookup_filter_update in H. by apply fmap_None in H.
Qed.

Lemma or_zero_default v : or_zero v = default 0 v.
Proof. destruct v as [m|]; simpl; [|done]. case_bool_decide; congruence. Qed.

Lemma max_of_rows_None sel (l : list Columns) :
  max_of_rows sel l = None →
  ∀ c, c ∈ l → sel c = true → priority c = None.
Proof.
  induction l as [|x l IH]; simpl; intros Hm c Hc Hs.
  - by apply elem_of_nil in Hc.
  - apply elem_of_cons in Hc as [->|Hc].
    + rewrite Hs in Hm. destruct (priority x); [|done].
      simpl in Hm. by destruct (max_of_rows sel l).
    + apply IH; [|done..]. destruct (sel x); [|done].
      destruct (priority x); simpl in Hm; [|done].
      by destruct (max_of_rows sel l).
Qed.

Lemma max_of_rows_Some sel (l : list Columns) m :
  max_of_rows sel l = Some m →
  (∃ c, c ∈ l ∧ sel c = true ∧ priority c = Some m) ∧
  (∀ c p, c ∈ l → sel c = true → priority c = Some p → p ≤ m).
Proof.
  revert m. induction l as [|x l IH]; simpl; intros m Hm; [done|].
  destruct (sel x) eqn:Hs.
  - destruct (priority x) as [px|] eqn:Hpx,
             (max_of_rows sel l) as [ml|] eqn:Hml; simpl in Hm; simplify_eq.
    + destruct (IH _ eq_refl) as [(c & Hc & Hsc & Hpc) Hle]. split.
      * destruct (decide (px ≤ ml)).
        -- exists c. rewrite Z.max_r by done. split_and!; [by right|done..].
        -- exists x. rewrite Z.max_l by lia. split_and!; [by left|done..].
      * intros c' p [->|Hc']%elem_of_cons Hs' Hp'.
        -- simplify_eq. lia.
        -- specialize (Hle _ _ Hc' Hs' Hp'). lia.
    + split.
      * exists x. split_and!; [by left|done..].
      * intros c' p [->|Hc']%elem_of_cons Hs' Hp'.
        -- simplify_eq. lia.
        -- by rewrite (max_of_rows_None _ _ Hml c' Hc' Hs') in Hp'.
    + destruct (IH _ eq_refl) as [(c & Hc & Hsc & Hpc) Hle]. split.
      * exists c. split_and!; [by right|done..].
      * intros c' p [->|Hc']%elem_of_cons Hs' Hp'; [congruence|eauto].
  - destruct (IH _ Hm) as [(c & Hc & Hsc & Hpc) Hle]. split.
    + exists c. split_and!; [by right|done..].
    + intros c' p [->|Hc']%elem_of_cons Hs' Hp'; [congruence|eauto].
Qed.

Lemma elem_of_rows t c : c ∈ (map_to_list t).*2 ↔ ∃ k, t !! k = Some c.
Proof.
  rewrite list_elem_of_fmap. split.
  - intros ([k c'] & -> & H). exists k. by apply elem_of_map_to_list.
  - intros [k H]. exists (k, c). split; [done|]. by apply elem_of_map_to_list.
Qed.

Lemma aggregate_max_None sel t :
  aggregate_max sel t = None →
  ∀ k c, t !! k = Some c → sel c = true → priority c = None.
Proof.
  intros Hm k c Hk. eapply max_of_rows_None; [exact Hm|].
  apply elem_of_rows. eauto.
Qed.

Lemma aggregate_max_Some sel t m :
  aggregate_max sel t = Some m →
  (∃ k c, t !! k = Some c ∧ sel c = true ∧ priority c = Some m) ∧
  (∀ k c p, t !! k = Some c → sel c = true → priority c = Some p → p ≤ m).
Proof.
  intros Hm. apply max_of_rows_Some in Hm as [(c & Hc & Hs & Hp) Hle]. split.
  - apply elem_of_rows in Hc as [k Hk]. eauto.
  - intros k c' p Hk. apply Hle, elem_of_rows. eauto.
Qed.

Lemma routine_is_true R c : routine_is R c = true ↔ routine c = R.
Proof. unfold routine_is. by rewrite bool_decide_eq_true. Qed.
End elementary.

(** ** The invariant through the view of a routine *)

Section slots.
Implicit Types (t : Table) (c : Columns) (V : Z → option (option Z)).

Lemma slot_Some R t k o :
  slot R t k = Some o ↔ ∃ c, t !! k = Some c ∧ routine c = R ∧ priority c = o.
Proof.
  unfold slot. split.
  - destruct (t !! k) as [c|]; [|done]. case_decide; [|done].
    intros [= <-]. eauto.
  - intros (c & -> & HR & <-). by rewrite decide_True.
Qed.

Lemma slot_None R t k :
  slot R t k = None ↔ ∀ c, t !! k = Some c → routine c ≠ R.
Proof.
  unfold slot. split.
  - destruct (t !! k) as [c|]; [|done]. case_decide; [done|].
    intros _ c' [= <-]. done.
  - intros H. destruct (t !! k) as [c|]; [|done].
    rewrite decide_False; [done|]. by apply H.
Qed.

Lemma dense_upto_slots R t n : dense_upto R t n ↔ dense_slots (slot R t) n.
Proof.
  split.
  - intros [Hr Hu Hf]. split.
    + intros k o (c & Hk & HR & <-)%slot_Some. exact (Hr k c Hk HR).
    + intros k1 k2 o (c1 & Hk1 & HR1 & <-)%slot_Some (c2 & Hk2 & HR2 & Hp)%slot_Some.
      by eapply Hu.
    + intros p Hp. destruct (Hf p Hp) as (k & c & Hk & HR & Hpc).
      exists k. apply slot_Some. eauto.
  - intros [Hr Hu Hf]. split.
    + intros k c Hk HR. apply (Hr k). apply slot_Some. eauto.
    + intros k1 c1 Hk1 k2 c2 Hk2 HR1 HR2 Hp.
      apply (Hu k1 k2 (priority c1)); apply slot_Some; eauto.
    + intros p Hp. destruct (Hf p Hp) as (k & (c & Hk & HR & Hpc)%slot_Some).
      exists k, c. eauto.
Qed.

Lemma dense_slots_ext V V' n :
  (∀ k, V' k = V k) → dense_slots V n → dense_slots V' n.
Proof.
  intros He [Hr Hu Hf]. split.
  - intros k o. rewrite He. apply Hr.
  - intros k1 k2 o. rewrite !He. apply Hu.
  - intros p Hp. destruct (Hf p Hp) as [k Hk]. exists k. by rewrite He.
Qed.

(** Opening slot [P] for the row of key [k]. *)
Lemma dense_slots_insert V V' n k P :
  dense_slots V n →
  V k = None → V' k = Some (Some P) → 1 ≤ P ≤ n + 1 →
  (∀ k', k' ≠ k → V' k' = renumber (bump P) (V k')) →
  dense_slots V' (n + 1).
Proof.
  intros [Hr Hu Hf] Hk Hk' HP Hoth.
  assert (Hinv : ∀ k' o, k' ≠ k → V' k' = Some o →
            ∃ p, V k' = Some (Some p) ∧ o = Some (bump P p) ∧ 1 ≤ p ≤ n).
  { intros k' o Hne Ho. rewrite (Hoth k' Hne) in Ho.
    destruct (V k') as [o'|] eqn:Ho'; [|done].
    destruct (Hr _ _ Ho') as (p & -> & Hp). simpl in Ho. simplify_eq. eauto. }
  split.
  - intros k' o Ho. destruct (decide (k' = k)) as [->|Hne].
    + rewrite Hk' in Ho. simplify_eq. exists P. split; [done|lia].
    + destruct (Hinv _ _ Hne Ho) as (p & _ & -> & Hp).
      exists (bump P p). split; [done|]. unfold bump. case_decide; lia.
  - intros k1 k2 o H1 H2.
    destruct (decide (k1 = k)) as [->|Hne1], (decide (k2 = k)) as [->|Hne2];
      [done|..].
    + rewrite Hk' in H1. simplify_eq.
      destruct (Hinv _ _ Hne2 H2) as (p & _ & [= Hp] & _).
      unfold bump in Hp. case_decide; lia.
    + rewrite Hk' in H2. simplify_eq.
      destruct (Hinv _ _ Hne1 H1) as (p & _ & [= Hp] & _).
      unfold bump in Hp. case_decide; lia.
    + destruct (Hinv _ _ Hne1 H1) as (p1 & Hp1 & -> & _).
      destruct (Hinv _ _ Hne2 H2) as (p2 & Hp2 & [= Hp] & _).
      assert (p1 = p2) as -> by (unfold bump in Hp; repeat case_decide; lia).
      by eapply Hu.
  - intros p Hp. destruct (decide (p = P)) as [->|HpP]; [by exists k|].
    destruct (decide (p < P)).
    + destruct (Hf p ltac:(lia)) as [k' Hk'p]. exists k'.
      assert (k' ≠ k) by (intros ->; congruence).
      rewrite Hoth, Hk'p by done. simpl. unfold bump.
      by rewrite decide_False by lia.
    + destruct (Hf (p - 1) ltac:(lia)) as [k' Hk'p]. exists k'.
      assert (k' ≠ k) by (intros ->; congruence).
      rewrite Hoth, Hk'p by done. simpl. unfold bump.
      rewrite decide_True by lia. do 2 f_equal. lia.
Qed.

(** Closing the slot of the row of key [k]. *)
Lemma dense_slots_remove V V' n k P :
  dense_slots V n →
  V k = Some (Some P) → V' k = None →
  (∀ k', k' ≠ k → V' k' = renumber (unbump P) (V k')) →
  dense_slots V' (n - 1).
Proof.
  intros [Hr Hu Hf] Hk Hk' Hoth.
  assert (HP : 1 ≤ P ≤ n).
  { destruct (Hr _ _ Hk) as (p & [= <-] & Hp). done. }
  assert (Hinv : ∀ k' o, V' k' = Some o →
            k' ≠ k ∧ ∃ p, V k' = Some (Some p) ∧ o = Some (unbump P p)
                          ∧ 1 ≤ p ≤ n ∧ p ≠ P).
  { intros k' o Ho. assert (Hne : k' ≠ k) by (intros ->; congruence).
    split; [done|]. rewrite (Hoth k' Hne) in Ho.
    destruct (V k') as [o'|] eqn:Ho'; [|done].
    destruct (Hr _ _ Ho') as (p & -> & Hp). simpl in Ho. simplify_eq.
    exists p. split_and!; [done|done|lia|lia|].
    intros ->. by apply Hne, (Hu k' k (Some P)). }
  split.
  - intros k' o Ho. destruct (Hinv _ _ Ho) as (_ & p & _ & -> & Hp & HpP).
    exists (unbump P p). split; [done|]. unfold unbump. case_decide; lia.
  - intros k1 k2 o H1 H2.
    destruct (Hinv _ _ H1) as (_ & p1 & Hp1 & -> & _ & Hn1).
    destruct (Hinv _ _ H2) as (_ & p2 & Hp2 & [= Hp] & _ & Hn2).
    assert (p1 = p2) as -> by (unfold unbump in Hp; repeat case_decide; lia).
    by eapply Hu.
  - intros p Hp. destruct (decide (p < P)).
    + destruct (Hf p ltac:(lia)) as [k' Hk'p]. exists k'.
      assert (k' ≠ k) by (intros ->; simplify_eq; lia).
      rewrite Hoth, Hk'p by done. simpl. unfold unbump.
      by rewrite decide_False by lia.
    + destruct (Hf (p + 1) ltac:(lia)) as [k' Hk'p]. exists k'.
      assert (k' ≠ k) by (intros ->; simplify_eq; lia).
      rewrite Hoth, Hk'p by done. simpl. unfold unbump.
      rewrite decide_True by lia. do 2 f_equal. lia.
Qed.

(** Moving the row of key [k] from slot [A] to slot [B]: closing [A], then
    opening [B]. *)
Lemma dense_slots_move V V' n k A B :
  dense_slots V n →
  V k = Some (Some A) → V' k = Some (Some B) → 1 ≤ B ≤ n →
  (∀ k', k' ≠ k → V' k' = renumber (λ p, bump B (unbump A p)) (V k')) →
  dense_slots V' n.
Proof.
  intros HV Hk Hk' HB Hoth.
  set (W := λ k', if decide (k' = k) then None else renumber (unbump A) (V k')).
  assert (HW : dense_slots W (n - 1)).
  { apply (dense_slots_remove V W n k A); [done..| |].
    - unfold W. by rewrite decide_True.
    - intros k' Hne. unfold W. by rewrite decide_False. }
  replace n with (n - 1 + 1) by lia.
  apply (dense_slots_insert W V' (n - 1) k B); [done| |done|lia|].
  - unfold W. by rewrite decide_True.
  - intros k' Hne. unfold W. rewrite decide_False by done.
    rewrite Hoth by done. destruct (V k') as [[p|]|]; done.
Qed.

(** The number of items of a routine whose priorities are [1..n] is [n]. *)
Lemma dense_upto_size R (n : nat) t :
  dense_upto R t (Z.of_nat n) → size (items_of R t) = n.
Proof.
  revert t. induction n as [|n IH]; intros t [Hr Hu Hf].
  - apply map_size_empty_iff, map_empty. intros k.
    destruct (items_of R t !! k) as [c|] eqn:Hk; [|done].
    apply map_lookup_filter_Some in Hk as [Hk HR]. simpl in HR.
    destruct (Hr k c Hk HR) as (p & _ & Hp). lia.
  - destruct (Hf (Z.of_nat (S n)) ltac:(lia)) as (k & c & Hk & HR & Hp).
    assert (Hd : dense_upto R (delete k t) (Z.of_nat n)).
    { split.
      - intros k' c' [Hne Hk']%lookup_delete_Some HR'.
        destruct (Hr k' c' Hk' HR') as (p & Hp' & Hle).
        exists p. split; [done|].
        assert (p ≠ Z.of_nat (S n)); [|lia].
        intros ->. apply Hne. symmetry. eapply (Hu k' c' Hk' k c Hk); congruence.
      - intros k1 c1 [_ H1]%lookup_delete_Some k2 c2 [_ H2]%lookup_delete_Some.
        by apply Hu.
      - intros p Hle. destruct (Hf p ltac:(lia)) as (k' & c' & Hk' & HR' & Hp').
        exists k', c'. split_and!; [|done..]. apply lookup_delete_Some.
        split; [|done]. intros <-. simplify_eq. lia. }
    apply IH in Hd. unfold items_of in *.
    rewrite map_filter_delete, map_size_delete in Hd.
    assert (Hin : filter (λ kc : Z * Columns, routine kc.2 = R) t !! k = Some c).
    { by apply map_lookup_filter_Some. }
    rewrite Hin in Hd.
    assert (size (filter (λ kc : Z * Columns, routine kc.2 = R) t) ≠ 0%nat).
    { intros H0. apply map_size_empty_iff in H0. by rewrite H0 in Hin. }
    lia.
Qed.

Lemma dense_upto_count R t n : 0 ≤ n → dense_upto R t n → count R t = n.
Proof.
  intros Hn Hd. unfold count.
  rewrite (dense_upto_size R (Z.to_nat n) t); [lia|].
  by rewrite Z2Nat.id.
Qed.

Lemma dense_upto_dense R t n : 0 ≤ n → dense_upto R t n → dense R t.
Proof. intros Hn Hd. unfold dense. by rewrite (dense_upto_count R t n). Qed.

Lemma count_nonneg R t : 0 ≤ count R t.
Proof. unfold count. lia. Qed.
End slots.

(** ** Row-level lemmas for the bulk updates *)

Section rows.
Implicit Types (t : Table) (c : Columns) (self : RoutineItem).

Lemma shift_Some d c p :
  priority c = Some p → shift d c = set_priority (Some (p + d)) c.
Proof. intros H. unfold shift. by rewrite H. Qed.

Lemma shift_None d c : priority c = None → shift d c = c.
Proof. intros H. unfold shift. rewrite H. by destruct c; simplify_eq/=. Qed.

Lemma set_priority_id c : set_priority (priority c) c = c.
Proof. by destruct c. Qed.

Lemma slot_insert R t k c k' :
  slot R (<[k:=c]> t) k' =
    if decide (k' = k)
    then (if decide (routine c = R) then Some (priority c) else None)
    else slot R t k'.
Proof.
  unfold slot. case_decide as Hk.
  - subst. by rewrite lookup_insert_eq.
  - by rewrite lookup_insert_ne.
Qed.

Lemma slot_delete R t k k' :
  slot R (delete k t) k' = if decide (k' = k) then None else slot R t k'.
Proof.
  unfold slot. case_decide as Hk.
  - subst. by rewrite lookup_delete_eq.
  - by rewrite lookup_delete_ne.
Qed.

Lemma slot_filter_update R sel d t k :
  slot R (filter_update sel d t) k =
    match t !! k with
    | Some c =>
        if decide (routine c = R)
        then Some (if sel c then (λ p, p + d) <$> priority c else priority c)
        else None
    | None => None
    end.
Proof.
  unfold slot. rewrite lookup_filter_update.
  destruct (t !! k) as [c|]; simpl; [|done]. by destruct (sel c).
Qed.

(** A bulk update filtered on another routine is invisible in [R]. *)
Lemma slot_filter_update_other R R' f d t k :
  R ≠ R' →
  slot R (filter_update (λ c, routine_is R' c && f c) d t) k = slot R t k.
Proof.
  intros Hne. rewrite slot_filter_update. unfold slot, routine_is.
  destruct (t !! k) as [c|]; [|done]. case_decide; [|done].
  by rewrite bool_decide_eq_false_2 by congruence.
Qed.

Lemma slot_bump R P t k :
  slot R (filter_update (λ c, routine_is R c && priority_gte P c) 1 t) k
  = renumber (bump P) (slot R t k).
Proof.
  rewrite slot_filter_update. unfold slot, routine_is, priority_gte, bump.
  destruct (t !! k) as [c|]; [|done]. case_decide; [|done]. simpl.
  rewrite bool_decide_eq_true_2 by done. simpl.
  destruct (priority c) as [p|]; [|done]. simpl.
  case_bool_decide; by case_decide.
Qed.

Lemma slot_unbump R P t k :
  slot R (filter_update (λ c, routine_is R c && priority_gt P c) (-1) t) k
  = renumber (unbump P) (slot R t k).
Proof.
  rewrite slot_filter_update. unfold slot, routine_is, priority_gt, unbump.
  destruct (t !! k) as [c|]; [|done]. case_decide; [|done]. simpl.
  rewrite bool_decide_eq_true_2 by done. simpl.
  destruct (priority c) as [p|]; [|done]. simpl.
  case_bool_decide; case_decide; done || lia.
Qed.

Lemma slot_move_up R A B t k :
  B < A →
  slot R (filter_update
            (λ c, routine_is R c && priority_gte B c && priority_lt A c) 1 t) k
  = renumber (λ p, if decide (p = A) then p else bump B (unbump A p)) (slot R t k).
Proof.
  intros HBA. rewrite slot_filter_update.
  unfold slot, routine_is, priority_gte, priority_lt, bump, unbump.
  destruct (t !! k) as [c|]; [|done]. case_decide; [|done]. simpl.
  rewrite bool_decide_eq_true_2 by done. simpl.
  destruct (priority c) as [p|]; [|done]. simpl.
  repeat case_bool_decide; repeat case_decide; simpl; try done; try lia;
    do 2 f_equal; lia.
Qed.

Lemma slot_move_down R A B t k :
  A ≤ B →
  slot R (filter_update
            (λ c, routine_is R c && priority_gt A c && priority_lte B c) (-1) t) k
  = renumber (λ p, if decide (p = A) then p else bump B (unbump A p)) (slot R t k).
Proof.
  intros HAB. rewrite slot_filter_update.
  unfold slot, routine_is, priority_gt, priority_lte, bump, unbump.
  destruct (t !! k) as [c|]; [|done]. case_decide; [|done]. simpl.
  rewrite bool_decide_eq_true_2 by done. simpl.
  destruct (priority c) as [p|]; [|done]. simpl.
  repeat case_bool_decide; repeat case_decide; simpl; try done; try lia;
    do 2 f_equal; lia.
Qed.
End rows.

(** ** Creation *)

Section create.
Implicit Types (t : Table) (c : Columns) (self : RoutineItem).

(** C2. Creating an item with an explicit priority [P] stores it at [P];
    every item of its routine formerly at a priority [>= P] is now at that
    priority plus one, and the items at priorities [< P] are unchanged. *)
Theorem create_insert_shifts_tail self t P :
  pk self = None →
  priority (cols self) = Some P →
  ∃ t' k' row,
    RoutineItem_save self t = Committed (t', mkItem (Some k') row) ∧
    t !! k' = None ∧ t' !! k' = Some row ∧
    routine row = routine (cols self) ∧ priority row = Some P ∧
    (∀ k c p, t !! k = Some c → routine c = routine (cols self) →
              priority c = Some p → P ≤ p →
              t' !! k = Some (set_priority (Some (p + 1)) c)) ∧
    (∀ k c p, t !! k = Some c → routine c = routine (cols self) →
              priority c = Some p → p < P →
              t' !! k = Some c).
Proof.
  intros Hpk HP.
  unfold RoutineItem_save. cbv zeta.
  rewrite pk_normalize_title, Hpk, priority_normalize_title, HP.
  unfold Model_save. rewrite pk_normalize_title, Hpk.
  rewrite routine_normalize_title.
  set (t1 := filter_update _ 1 t).
  assert (Hfresh : t !! next_pk t1 = None) by apply next_pk_fresh_before.
  assert (Hne : ∀ k c, t !! k = Some c → k ≠ next_pk t1) by congruence.
  eexists _, _, _. split; [reflexivity|].
  split_and!; [done|apply lookup_insert_eq| | |..].
  - apply routine_normalize_title.
  - by rewrite priority_normalize_title.
  - intros k c p Hk HR Hp Hle. rewrite lookup_insert_ne by (symmetry; eauto).
    unfold t1. rewrite (lookup_filter_update_Some _ _ _ _ _ Hk).
    unfold routine_is, priority_gte. rewrite Hp.
    rewrite !bool_decide_eq_true_2 by done. simpl. by rewrite (shift_Some _ _ p).
  - intros k c p Hk HR Hp Hlt. rewrite lookup_insert_ne by (symmetry; eauto).
    unfold t1. rewrite (lookup_filter_update_Some _ _ _ _ _ Hk).
    unfold routine_is, priority_gte. rewrite Hp.
    rewrite (bool_decide_eq_false_2 (P ≤ p)) by lia. by rewrite andb_false_r.
Qed.

Lemma create_insert_shifts_tail_witness :
  ∃ t' k' row,
    RoutineItem_save (mkItem None (mkColumns 7 "stretch" None true (Some 1)))
      (<[1 := mkColumns 7 "Wake" None true (Some 1)]>
         (<[2 := mkColumns 7 "Run" None true (Some 2)]> ∅))
    = Committed (t', mkItem (Some k') row) ∧ t' !! k' = Some row.
Proof.
  destruct (create_insert_shifts_tail
              (mkItem None (mkColumns 7 "stretch" None true (Some 1)))
              (<[1 := mkColumns 7 "Wake" None true (Some 1)]>
                 (<[2 := mkColumns 7 "Run" None true (Some 2)]> ∅))
              1 eq_refl eq_refl) as (t' & k' & row & H1 & _ & H2 & _).
  exists t', k', row. split; assumption.
Defined.

Lemma or_zero_max_empty R t :
  (∀ k c, t !! k = Some c → routine c = R → priority c = None) →
  or_zero (aggregate_max (routine_is R) t) = 0.
Proof.
  intros Hno. destruct (aggregate_max (routine_is R) t) as [m|] eqn:Hm; [|done].
  apply aggregate_max_Some in Hm as [(k & c & Hk & HR%routine_is_true & Hp) _].
  by rewrite (Hno k c Hk HR) in Hp.
Qed.

Lemma or_zero_max_is_max R t m :
  is_max_priority R t m → or_zero (aggregate_max (routine_is R) t) = m.
Proof.
  intros [(k & c & Hk & HR & Hp) Hle]. rewrite or_zero_default.
  destruct (aggregate_max (routine_is R) t) as [m'|] eqn:Hm; simpl.
  - apply aggregate_max_Some in Hm
      as [(k' & c' & Hk' & HR'%routine_is_true & Hp') Hle'].
    specialize (Hle _ _ _ Hk' HR' Hp').
    specialize (Hle' k c m Hk (proj2 (routine_is_true R c) HR) Hp). lia.
  - pose proof (aggregate_max_None _ _ Hm k c Hk
                  (proj2 (routine_is_true R c) HR)). congruence.
Qed.

(** C3. Creating an item with no priority gives it the largest priority of
    its routine plus one, or [1] when the routine has no item; no stored
    row changes. *)
Theorem create_appends_when_priority_absent self t :
  pk self = None →
  priority (cols self) = None →
  ∃ t' k' row,
    RoutineItem_save self t = Committed (t', mkItem (Some k') row) ∧
    t !! k' = None ∧ t' !! k' = Some row ∧
    routine row = routine (cols self) ∧
    (∀ k c, t !! k = Some c → t' !! k = Some c) ∧
    ((∀ k c, t !! k = Some c → routine c ≠ routine (cols self)) →
     priority row = Some 1) ∧
    (∀ m, is_max_priority (routine (cols self)) t m →
          priority row = Some (m + 1)).
Proof.
  intros Hpk HP.
  unfold RoutineItem_save. cbv zeta.
  rewrite pk_normalize_title, Hpk, priority_normalize_title, HP.
  unfold Model_save. simpl. rewrite pk_normalize_title, Hpk.
  rewrite routine_normalize_title.
  eexists _, _, _. split; [reflexivity|].
  split_and!; [apply next_pk_fresh|apply lookup_insert_eq| | | |].
  - simpl. apply routine_normalize_title.
  - intros k c Hk. rewrite lookup_insert_ne; [done|].
    intros <-. by rewrite next_pk_fresh in Hk.
  - intros Hno. simpl. rewrite or_zero_max_empty; [done|].
    intros k c Hk HR. by destruct (Hno k c Hk).
  - intros m Hm. simpl. by rewrite (or_zero_max_is_max _ _ m).
Qed.

Lemma create_appends_when_priority_absent_witness :
  ∃ t' k' row,
    RoutineItem_save (mkItem None (mkColumns 7 "stretch" None true None))
      (<[1 := mkColumns 7 "Wake" None true (Some 1)]>
         (<[2 := mkColumns 7 "Run" None true (Some 2)]> ∅))
    = Committed (t', mkItem (Some k') row) ∧ t' !! k' = Some row.
Proof.
  destruct (create_appends_when_priority_absent
              (mkItem None (mkColumns 7 "stretch" None true None))
              (<[1 := mkColumns 7 "Wake" None true (Some 1)]>
                 (<[2 := mkColumns 7 "Run" None true (Some 2)]> ∅))
              eq_refl eq_refl) as (t' & k' & row & H1 & _ & H2 & _).
  exists t', k', row. split; assumption.
Defined.
End create.

(** ** Updates within a routine *)

Section update_within.
Implicit Types (t : Table) (c : Columns) (self : RoutineItem).

Lemma with_cols_id self : with_cols (cols self) self = self.
Proof. by destruct self. Qed.

Lemma with_priority_id self p :
  priority (cols self) = p →
  with_cols (set_priority p (cols self)) self = self.
Proof. intros <-. by rewrite set_priority_id, with_cols_id. Qed.

Lemma sel_move_up R A B c :
  routine_is R c && priority_gte B c && priority_lt A c
  = bool_decide (routine c = R ∧ priority_in_co B A c).
Proof.
  destruct (decide (routine c = R ∧ priority_in_co B A c)) as [H|H].
  - rewrite (bool_decide_eq_true_2 _ H). destruct H as (HR & p & Hp & Hr).
    unfold routine_is, priority_gte, priority_lt. rewrite Hp.
    by rewrite !bool_decide_eq_true_2 by (done || lia).
  - rewrite (bool_decide_eq_false_2 _ H). apply not_true_is_false. intros Ht.
    apply H. unfold routine_is, priority_gte, priority_lt in Ht.
    destruct (priority c) as [p|] eqn:Hp.
    + repeat case_bool_decide; simpl in Ht; try done.
      split; [done|]. exists p. split; [done|lia].
    + by rewrite andb_false_r in Ht.
Qed.

Lemma sel_move_down R A B c :
  routine_is R c && priority_gt A c && priority_lte B c
  = bool_decide (routine c = R ∧ priority_in_oc A B c).
Proof.
  destruct (decide (routine c = R ∧ priority_in_oc A B c)) as [H|H].
  - rewrite (bool_decide_eq_true_2 _ H). destruct H as (HR & p & Hp & Hr).
    unfold routine_is, priority_gt, priority_lte. rewrite Hp.
    by rewrite !bool_decide_eq_true_2 by (done || lia).
  - rewrite (bool_decide_eq_false_2 _ H). apply not_true_is_false. intros Ht.
    apply H. unfold routine_is, priority_gt, priority_lte in Ht.
    destruct (priority c) as [p|] eqn:Hp.
    + repeat case_bool_decide; simpl in Ht; try done.
      split; [done|]. exists p. split; [done|lia].
    + by rewrite andb_false_r in Ht.
Qed.

(** The three outcomes of an update that keeps the routine, as tables. *)
Lemma save_same_priority self t k old :
  pk self = Some k → t !! k = Some old →
  routine (cols self) = routine old →
  priority (cols self) = priority old →
  RoutineItem_save self t
  = Committed (<[k := cols (normalize_title self)]> t, normalize_title self).
Proof.
  intros Hpk Hk HR Hp. unfold RoutineItem_save. cbv zeta.
  rewrite pk_normalize_title, Hpk, Hk, routine_normalize_title,
    priority_normalize_title.
  rewrite bool_decide_eq_false_2 by (intros H; by apply H).
  rewrite bool_decide_eq_false_2 by (intros H; by apply H).
  unfold Model_save. by rewrite pk_normalize_title, Hpk.
Qed.

Lemma save_move_up self t k old A B :
  pk self = Some k → t !! k = Some old →
  routine (cols self) = routine old →
  priority old = Some A → priority (cols self) = Some B → B < A →
  RoutineItem_save self t
  = Committed
      (<[k := cols (normalize_title self)]>
         (filter_update
            (λ c, routine_is (routine old) c && priority_gte B c && priority_lt A c)
            1 t),
       normalize_title self).
Proof.
  intros Hpk Hk HR HA HB Hlt. unfold RoutineItem_save. cbv zeta.
  rewrite pk_normalize_title, Hpk, Hk, routine_normalize_title,
    priority_normalize_title, HR, HA, HB.
  rewrite bool_decide_eq_false_2 by (intros H; by apply H).
  rewrite bool_decide_eq_true_2 by (intros [=]; lia).
  rewrite bool_decide_eq_true_2 by done.
  rewrite with_priority_id by (by rewrite priority_normalize_title).
  unfold Model_save. by rewrite pk_normalize_title, Hpk, routine_normalize_title, HR.
Qed.

Lemma save_move_down self t k old A B :
  pk self = Some k → t !! k = Some old →
  routine (cols self) = routine old →
  priority old = Some A → priority (cols self) = Some B → A < B →
  RoutineItem_save self t
  = Committed
      (<[k := cols (normalize_title self)]>
         (filter_update
            (λ c, routine_is (routine old) c && priority_gt A c && priority_lte B c)
            (-1) t),
       normalize_title self).
Proof.
  intros Hpk Hk HR HA HB Hlt. unfold RoutineItem_save. cbv zeta.
  rewrite pk_normalize_title, Hpk, Hk, routine_normalize_title,
    priority_normalize_title, HR, HA, HB.
  rewrite bool_decide_eq_false_2 by (intros H; by apply H).
  rewrite bool_decide_eq_true_2 by (intros [=]; lia).
  rewrite bool_decide_eq_false_2 by lia.
  rewrite with_priority_id by (by rewrite priority_normalize_title).
  unfold Model_save. by rewrite pk_normalize_title, Hpk, routine_normalize_title, HR.
Qed.

(** C4. Updating an item inside its routine from priority [A] to an
    explicit priority [B]: when [B < A] exactly the items of the routine
    with priority in [[B, A)] are incremented, when [A < B] exactly those
    with priority in [(A, B]] are decremented, and the item is stored at
    [B]; when the priority is the stored one, the row is written and no
    other row changes. *)
Theorem move_within_routine_shifts self t k old :
  pk self = Some k →
  t !! k = Some old →
  routine (cols self) = routine old →
  let self' := normalize_title self in
  let R := routine old in
  (priority (cols self) = priority old →
     RoutineItem_save self t = Committed (<[k := cols self']> t, self')) ∧
  (∀ A B, priority old = Some A → priority (cols self) = Some B → B < A →
     ∃ t', RoutineItem_save self t = Committed (t', self') ∧
           t' !! k = Some (cols self') ∧ priority (cols self') = Some B ∧
           ∀ k' c, k' ≠ k → t !! k' = Some c →
             t' !! k' = Some (if decide (routine c = R ∧ priority_in_co B A c)
                              then shift 1 c else c)) ∧
  (∀ A B, priority old = Some A → priority (cols self) = Some B → A < B →
     ∃ t', RoutineItem_save self t = Committed (t', self') ∧
           t' !! k = Some (cols self') ∧ priority (cols self') = Some B ∧
           ∀ k' c, k' ≠ k → t !! k' = Some c →
             t' !! k' = Some (if decide (routine c = R ∧ priority_in_oc A B c)
                              then shift (-1) c else c)).
Proof.
  intros Hpk Hk HR self' R. subst self' R. split_and!.
  - intros Hp. by apply save_same_priority with old.
  - intros A B HA HB Hlt. eexists. split; [by eapply save_move_up|].
    split_and!; [apply lookup_insert_eq|by rewrite priority_normalize_title|].
    intros k' c Hne Hk'. rewrite lookup_insert_ne by done.
    rewrite (lookup_filter_update_Some _ _ _ _ _ Hk'), sel_move_up.
    case_bool_decide; by case_decide.
  - intros A B HA HB Hlt. eexists. split; [by eapply save_move_down|].
    split_and!; [apply lookup_insert_eq|by rewrite priority_normalize_title|].
    intros k' c Hne Hk'. rewrite lookup_insert_ne by done.
    rewrite (lookup_filter_update_Some _ _ _ _ _ Hk'), sel_move_down.
    case_bool_decide; by case_decide.
Qed.
End update_within.

Section update_within_more.
Implicit Types (t : Table) (c : Columns) (self : RoutineItem).

Lemma move_within_routine_shifts_witness :
  ∃ t', RoutineItem_save (mkItem (Some 3) (item 1 "C" 1)) sample
        = Committed (t', mkItem (Some 3) (item 1 "C" 1)) ∧
        t' !! 1 = Some (item 1 "A" 2) ∧ t' !! 2 = Some (item 1 "B" 3) ∧
        t' !! 3 = Some (item 1 "C" 1) ∧ t' !! 4 = Some (item 1 "D" 4).
Proof.
  destruct (move_within_routine_shifts
              (mkItem (Some 3) (item 1 "C" 1)) sample 3 (item 1 "C" 3)
              eq_refl eq_refl eq_refl) as (_ & Hup & _).
  destruct (Hup 3 1 eq_refl eq_refl eq_refl) as (t' & Hs & Hk & _ & Hoth).
  exists t'. split; [exact Hs|].
  split_and!; [|  |exact Hk| ].
  - by rewrite (Hoth 1 (item 1 "A" 1)).
  - by rewrite (Hoth 2 (item 1 "B" 2)).
  - by rewrite (Hoth 4 (item 1 "D" 4)).
Defined.

Lemma shift_shift c d : shift (- d) (shift d c) = c.
Proof.
  destruct c as [R ti de ac [p|]]; unfold shift; simpl; [|done].
  by replace (p + d + - d) with p by lia.
Qed.

Lemma shift_shift' c d : shift d (shift (- d) c) = c.
Proof.
  destruct c as [R ti de ac [p|]]; unfold shift; simpl; [|done].
  by replace (p + - d + d) with p by lia.
Qed.

(** Undoing a move up by the move down, on one row other than the moved
    one, whose priority is not the old slot [A]. *)
Lemma move_up_then_down_row R A B c :
  B < A → (routine c = R → priority c ≠ Some A) →
  let c1 := if routine_is R c && priority_gte B c && priority_lt A c
            then shift 1 c else c in
  (if routine_is R c1 && priority_gt B c1 && priority_lte A c1
   then shift (-1) c1 else c1) = c.
Proof.
  intros Hlt HnA. cbv zeta. rewrite sel_move_up.
  case_bool_decide as H1.
  - destruct H1 as (HR & p & Hp & Hr). rewrite sel_move_down.
    rewrite bool_decide_eq_true_2; [apply (shift_shift c 1)|].
    split; [done|]. exists (p + 1).
    rewrite (shift_Some _ _ p) by done. split; [done|lia].
  - rewrite sel_move_down. rewrite bool_decide_eq_false_2; [done|].
    intros (HR & p & Hp & Hr). apply H1. split; [done|].
    exists p. split; [done|]. specialize (HnA HR). rewrite Hp in HnA.
    assert (p ≠ A) by congruence. lia.
Qed.

Lemma move_down_then_up_row R A B c :
  A < B → (routine c = R → priority c ≠ Some A) →
  let c1 := if routine_is R c && priority_gt A c && priority_lte B c
            then shift (-1) c else c in
  (if routine_is R c1 && priority_gte A c1 && priority_lt B c1
   then shift 1 c1 else c1) = c.
Proof.
  intros Hlt HnA. cbv zeta. rewrite sel_move_down.
  case_bool_decide as H1.
  - destruct H1 as (HR & p & Hp & Hr). rewrite sel_move_up.
    rewrite bool_decide_eq_true_2; [apply (shift_shift' c 1)|].
    split; [done|]. exists (p - 1).
    rewrite (shift_Some _ _ p) by done. split; [done|lia].
  - rewrite sel_move_up. rewrite bool_decide_eq_false_2; [done|].
    intros (HR & p & Hp & Hr). apply H1. split; [done|].
    exists p. split; [done|]. specialize (HnA HR). rewrite Hp in HnA.
    assert (p ≠ A) by congruence. lia.
Qed.

(** C5. In a densely ordered routine, moving the item at priority [A] to
    another priority [B] and then back to [A] restores every row other
    than the moved one, and the moved item is at [A] in its routine
    again. *)
Theorem move_round_trip self t k old R A B :
  dense R t →
  pk self = Some k → t !! k = Some old →
  routine old = R → routine (cols self) = R →
  priority old = Some A → priority (cols self) = Some B →
  A ≠ B →
  ∃ t1 self1 t2 self2,
    RoutineItem_save self t = Committed (t1, self1) ∧
    RoutineItem_save (with_cols (set_priority (Some A) (cols self1)) self1) t1
      = Committed (t2, self2) ∧
    (∀ k', k' ≠ k → t2 !! k' = t !! k') ∧
    (∃ c, t2 !! k = Some c ∧ routine c = R ∧ priority c = Some A).
Proof.
  intros Hd Hpk Hk HRo HRs HA HB Hne.
  set (self1 := normalize_title self).
  set (self2 := with_cols (set_priority (Some A) (cols self1)) self1).
  assert (HnA : ∀ k' c, k' ≠ k → t !! k' = Some c →
                        routine c = R → priority c ≠ Some A).
  { intros k' c Hk'ne Hk' HRc HpA. apply Hk'ne.
    eapply (dense_unique _ _ _ Hd k' c Hk' k old Hk); congruence. }
  assert (Hpk2 : pk self2 = Some k) by (unfold self2, self1; simpl;
                                        by rewrite pk_normalize_title).
  assert (HR2 : routine (cols self2) = routine (cols self1)) by done.
  assert (HR1 : routine (cols self1) = R)
    by (unfold self1; by rewrite routine_normalize_title).
  assert (HP1 : priority (cols self1) = Some B)
    by (unfold self1; by rewrite priority_normalize_title).
  assert (HP2 : priority (cols self2) = Some A) by done.
  destruct (decide (B < A)) as [Hlt|Hge].
  - eexists _, self1, _, _. split.
    { eapply save_move_up; eauto. congruence. }
    split.
    { eapply (save_move_down self2 _ k (cols self1) B A); eauto.
      apply lookup_insert_eq. }
    split.
    + intros k' Hk'ne. rewrite lookup_insert_ne by done.
      rewrite lookup_filter_update, lookup_insert_ne by done.
      rewrite lookup_filter_update. rewrite HRo, HR1.
      destruct (t !! k') as [c|] eqn:Hk'; [|done]. simpl. f_equal.
      apply move_up_then_down_row; [done|]. eauto.
    + eexists. split; [apply lookup_insert_eq|].
      by rewrite routine_normalize_title, priority_normalize_title, HR2, HR1.
  - assert (Hlt : A < B) by lia.
    eexists _, self1, _, _. split.
    { eapply save_move_down; eauto. congruence. }
    split.
    { eapply (save_move_up self2 _ k (cols self1) B A); eauto.
      apply lookup_insert_eq. }
    split.
    + intros k' Hk'ne. rewrite lookup_insert_ne by done.
      rewrite lookup_filter_update, lookup_insert_ne by done.
      rewrite lookup_filter_update. rewrite HRo, HR1.
      destruct (t !! k') as [c|] eqn:Hk'; [|done]. simpl. f_equal.
      apply move_down_then_up_row; [done|]. eauto.
    + eexists. split; [apply lookup_insert_eq|].
      by rewrite routine_normalize_title, priority_normalize_title, HR2, HR1.
Qed.

Lemma move_round_trip_witness :
  dense 1 sample ∧
  ∃ t1 self1 t2 self2,
    RoutineItem_save (mkItem (Some 3) (item 1 "C" 1)) sample
      = Committed (t1, self1) ∧
    RoutineItem_save (with_cols (set_priority (Some 3) (cols self1)) self1) t1
      = Committed (t2, self2) ∧
    (∀ k', k' ≠ 3 → t2 !! k' = sample !! k') ∧
    (∃ c, t2 !! 3 = Some c ∧ routine c = 1 ∧ priority c = Some 3).
Proof.
  assert (Hd : dense 1 sample) by (apply (bool_decide_unpack _); vm_compute; exact I).
  split; [exact Hd|].
  apply (move_round_trip (mkItem (Some 3) (item 1 "C" 1)) sample 3
           (item 1 "C" 3) 1 3 1 Hd); reflexivity || discriminate.
Defined.

Lemma dense_is_max R t n : dense_upto R t n → 1 ≤ n → is_max_priority R t n.
Proof.
  intros [Hr Hu Hf] Hn. split; [apply Hf; lia|].
  intros k c p Hk HR Hp. destruct (Hr k c Hk HR) as (q & Hq & Hle).
  rewrite Hp in Hq. simplify_eq. lia.
Qed.

Lemma dense_or_zero_max R t n :
  dense_upto R t n → 0 ≤ n → or_zero (aggregate_max (routine_is R) t) = n.
Proof.
  intros Hd Hn. destruct (decide (n = 0)) as [->|Hn0].
  - apply or_zero_max_empty. intros k c Hk HR.
    destruct (dense_range _ _ _ Hd k c Hk HR) as (q & _ & Hle). lia.
  - apply or_zero_max_is_max, dense_is_max; [done|lia].
Qed.

Lemma save_move_to_absent self t k old A :
  pk self = Some k → t !! k = Some old →
  routine (cols self) = routine old →
  priority old = Some A → priority (cols self) = None →
  let B := or_zero (aggregate_max (routine_is (routine old)) t) + 1 in
  A ≤ B →
  RoutineItem_save self t
  = Committed
      (<[k := set_priority (Some B) (cols (normalize_title self))]>
         (filter_update
            (λ c, routine_is (routine old) c && priority_gt A c && priority_lte B c)
            (-1) t),
       with_cols (set_priority (Some B) (cols (normalize_title self)))
         (normalize_title self)).
Proof.
  intros Hpk Hk HR HA HB B Hle. subst B. unfold RoutineItem_save. cbv zeta.
  rewrite pk_normalize_title, Hpk, Hk, routine_normalize_title,
    priority_normalize_title, HR, HA, HB.
  rewrite bool_decide_eq_false_2 by (intros H; by apply H).
  rewrite bool_decide_eq_true_2 by done.
  rewrite bool_decide_eq_false_2 by lia.
  unfold Model_save. simpl.
  by rewrite pk_normalize_title, Hpk, routine_normalize_title, HR.
Qed.

(** C9. In a densely ordered routine of [N] items, an update that sets an
    item's priority to absent and keeps its routine stores it at [N + 1]
    and decrements the items after its old slot: the priorities of the
    routine are then exactly [1..N-1] and [N + 1], and no item is at [N]. *)
Theorem move_within_to_absent_leaves_gap self t k old R A :
  dense R t →
  pk self = Some k → t !! k = Some old →
  routine old = R → routine (cols self) = R →
  priority old = Some A → priority (cols self) = None →
  let N := count R t in
  ∃ t' self',
    RoutineItem_save self t = Committed (t', self') ∧
    priority (cols self') = Some (N + 1) ∧
    routine (cols self') = R ∧
    t' !! k = Some (cols self') ∧
    (∀ k' c q, k' ≠ k → t !! k' = Some c → routine c = R →
               priority c = Some q → A < q →
               t' !! k' = Some (set_priority (Some (q - 1)) c)) ∧
    (∀ k' c q, k' ≠ k → t !! k' = Some c → routine c = R →
               priority c = Some q → q < A →
               t' !! k' = Some c) ∧
    (∀ q, has_item_at R t' q ↔ 1 ≤ q ≤ N - 1 ∨ q = N + 1) ∧
    ¬ has_item_at R t' N.
Proof.
  intros Hd Hpk Hk <- HRs HA HB N.
  subst N. unfold dense in Hd.
  pose proof (count_nonneg (routine old) t) as HN0.
  destruct (dense_range _ _ _ Hd k old Hk eq_refl) as (A' & HA' & HAr).
  rewrite HA in HA'. simplify_eq.
  assert (Hmax : or_zero (aggregate_max (routine_is (routine old)) t)
                 = count (routine old) t).
  { by apply dense_or_zero_max. }
  pose proof (save_move_to_absent self t k old A' Hpk Hk HRs HA HB) as Hsave.
  cbv zeta in Hsave. rewrite Hmax in Hsave. specialize (Hsave ltac:(lia)).
  clear Hmax. set (N := count (routine old) t) in *.
  set (t' := <[k := _]> _) in Hsave.
  assert (Hslot : ∀ q, has_item_at (routine old) t' q ↔
                       1 ≤ q ≤ N - 1 ∨ q = N + 1).
  { apply dense_upto_slots in Hd as HV.
    set (W := λ k', if decide (k' = k) then None
                    else renumber (unbump A') (slot (routine old) t k')).
    assert (HW : dense_slots W (N - 1)).
    { apply (dense_slots_remove _ W N k A' HV).
      - apply slot_Some. eauto.
      - unfold W. by rewrite decide_True.
      - intros k' Hne. unfold W. by rewrite decide_False. }
    assert (HW' : ∀ k', k' ≠ k → slot (routine old) t' k' = W k').
    { intros k' Hne. unfold t'. rewrite slot_insert, decide_False by done.
      rewrite slot_move_down by lia. unfold W. rewrite decide_False by done.
      destruct (slot (routine old) t k') as [[q|]|] eqn:Hq; [|done..]. simpl.
      destruct (ds_range _ _ HV _ _ Hq) as (q' & [= <-] & Hqr).
      assert (q ≠ A').
      { intros ->. apply Hne. eapply (ds_unique _ _ HV); [exact Hq|].
        apply slot_Some. eauto. }
      rewrite decide_False by done. unfold bump, unbump.
      repeat case_decide; (done || lia). }
    intros q. split.
    - intros (k' & c & Hk' & HRc & Hpc).
      destruct (decide (k' = k)) as [->|Hne].
      + unfold t' in Hk'. rewrite lookup_insert_eq in Hk'. simplify_eq.
        simpl in Hpc. right. congruence.
      + left. assert (Hs : W k' = Some (Some q)).
        { rewrite <- HW' by done. apply slot_Some. eauto. }
        destruct (ds_range _ _ HW _ _ Hs) as (q' & [= <-] & Hqr). done.
    - intros [Hq| ->].
      + destruct (ds_full _ _ HW q Hq) as [k' Hs].
        assert (k' ≠ k).
        { intros ->. unfold W in Hs. by rewrite decide_True in Hs. }
        rewrite <- HW' in Hs by done.
        apply slot_Some in Hs as (c & Hc & HRc & Hpc). by exists k', c.
      + exists k. eexists. split; [apply lookup_insert_eq|]. simpl.
        by rewrite routine_normalize_title, HRs. }
  exists t'. eexists. split; [exact Hsave|].
  split_and!.
  - done.
  - simpl. by rewrite routine_normalize_title.
  - apply lookup_insert_eq.
  - intros k' c q Hne Hk' HRc Hq Hlt. unfold t'.
    rewrite lookup_insert_ne by done.
    rewrite (lookup_filter_update_Some _ _ _ _ _ Hk'), sel_move_down.
    destruct (dense_range _ _ _ Hd k' c Hk' HRc) as (q' & Hq' & Hqr).
    rewrite Hq in Hq'. simplify_eq.
    rewrite bool_decide_eq_true_2.
    + by rewrite (shift_Some _ _ q').
    + split; [done|]. exists q'. split; [done|lia].
  - intros k' c q Hne Hk' HRc Hq Hlt. unfold t'.
    rewrite lookup_insert_ne by done.
    rewrite (lookup_filter_update_Some _ _ _ _ _ Hk'), sel_move_down.
    rewrite bool_decide_eq_false_2; [done|].
    intros (_ & q' & Hq' & Hqr). rewrite Hq in Hq'. simplify_eq. lia.
  - done.
  - intros HN%Hslot. lia.
Qed.

Lemma move_within_to_absent_leaves_gap_witness :
  dense 1 sample ∧
  ∃ t' self',
    RoutineItem_save (mkItem (Some 2) (mkColumns 1 "B" None true None)) sample
      = Committed (t', self') ∧
    priority (cols self') = Some 5 ∧
    ¬ has_item_at 1 t' 4.
Proof.
  assert (Hd : dense 1 sample) by (apply (bool_decide_unpack _); vm_compute; exact I).
  split; [exact Hd|].
  destruct (move_within_to_absent_leaves_gap
              (mkItem (Some 2) (mkColumns 1 "B" None true None)) sample 2
              (item 1 "B" 2) 1 2 Hd eq_refl eq_refl eq_refl eq_refl eq_refl
              eq_refl) as (t' & self' & Hs & Hp & _ & _ & _ & _ & _ & Hv).
  exists t', self'. split_and!; [exact Hs|exact Hp|exact Hv].
Defined.
End update_within_more.

(** ** The fallback when the stored row is missing *)

Section fallback.
Implicit Types (t : Table) (c : Columns) (self : RoutineItem).

(** C8. An update whose primary key matches no stored row commits a plain
    row write: the row of that key holds the instance's routine,
    priority, description and active flag (and its title, normalised as
    on every save), every other row is as before, and nothing is raised. *)
Theorem save_missing_row_is_plain_write self t k :
  pk self = Some k →
  t !! k = None →
  ∃ row,
    RoutineItem_save self t = Committed (<[k := row]> t, mkItem (Some k) row) ∧
    routine row = routine (cols self) ∧
    priority row = priority (cols self) ∧
    description row = description (cols self) ∧
    is_active row = is_active (cols self) ∧
    title row = (if bool_decide (title (cols self) = EmptyString)
                 then title (cols self)
                 else str_title (str_strip (title (cols self)))) ∧
    ∀ k', k' ≠ k → <[k := row]> t !! k' = t !! k'.
Proof.
  intros Hpk Hk. exists (cols (normalize_title self)). split.
  - unfold RoutineItem_save. cbv zeta. rewrite pk_normalize_title, Hpk, Hk.
    unfold Model_save. rewrite pk_normalize_title, Hpk.
    do 2 f_equal. destruct (normalize_title self) as [pk' c'] eqn:He. simpl.
    f_equal. by rewrite <- Hpk, <- (pk_normalize_title self), He.
  - split_and!.
    + apply routine_normalize_title.
    + apply priority_normalize_title.
    + apply description_normalize_title.
    + apply is_active_normalize_title.
    + unfold normalize_title. by case_bool_decide.
    + intros k' Hne. by rewrite lookup_insert_ne.
Qed.

Lemma save_missing_row_is_plain_write_witness :
  ∃ row,
    RoutineItem_save (mkItem (Some 9) (mkColumns 1 " late  item" None true (Some 2)))
      sample
    = Committed (<[9 := row]> sample, mkItem (Some 9) row) ∧
    priority row = Some 2 ∧ title row = "Late  Item"%string.
Proof.
  destruct (save_missing_row_is_plain_write
              (mkItem (Some 9) (mkColumns 1 " late  item" None true (Some 2)))
              sample 9 eq_refl eq_refl)
    as (row & Hs & _ & Hp & _ & _ & Ht & _).
  exists row. split_and!; [exact Hs|exact Hp|exact Ht].
Defined.
End fallback.

(** ** Rows of the routines a request does not name *)

Section frame.
Implicit Types (t : Table) (c : Columns) (self : RoutineItem).

Lemma routine_shift d c : routine (shift d c) = routine c.
Proof. done. Qed.

Lemma frame_filter_update R R' sel d t k c :
  (∀ c', sel c' = true → routine c' = R') →
  R ≠ R' → routine c = R →
  filter_update sel d t !! k = Some c ↔ t !! k = Some c.
Proof.
  intros Hsel Hne HR. rewrite lookup_filter_update.
  destruct (t !! k) as [c0|]; simpl; [|done].
  destruct (sel c0) eqn:Hs; [|done]. apply Hsel in Hs. split.
  - intros [= <-]. rewrite routine_shift in HR. congruence.
  - intros [= ->]. congruence.
Qed.

Lemma frame_insert R t k0 c0 k c :
  routine c0 ≠ R →
  (∀ old, t !! k0 = Some old → routine old ≠ R) →
  routine c = R →
  <[k0 := c0]> t !! k = Some c ↔ t !! k = Some c.
Proof.
  intros Hc0 Hold HR. destruct (decide (k = k0)) as [->|Hne].
  - rewrite lookup_insert_eq. split.
    + intros [= ->]. done.
    + intros Hk. by destruct (Hold _ Hk).
  - by rewrite lookup_insert_ne.
Qed.

Lemma frame_delete R t k0 k c :
  (∀ old, t !! k0 = Some old → routine old ≠ R) →
  routine c = R →
  delete k0 t !! k = Some c ↔ t !! k = Some c.
Proof.
  intros Hold HR. rewrite lookup_delete_Some. split; [by intros [_ ?]|].
  intros Hk. split; [|done]. intros ->. by destruct (Hold _ Hk).
Qed.

Lemma sel_routine_2 R' f c :
  routine_is R' c && f c = true → routine c = R'.
Proof. intros [H _]%andb_prop. by apply routine_is_true. Qed.

Lemma sel_routine_3 R' f g c :
  routine_is R' c && f c && g c = true → routine c = R'.
Proof. intros [[H _]%andb_prop _]%andb_prop. by apply routine_is_true. Qed.

Lemma slot_ext_rows R t t' :
  (∀ k c, routine c = R → t' !! k = Some c ↔ t !! k = Some c) →
  ∀ k, slot R t' k = slot R t k.
Proof.
  intros H k. unfold slot.
  destruct (t' !! k) as [c'|] eqn:Hk', (t !! k) as [c|] eqn:Hk;
    repeat case_decide; try done.
  - apply H in Hk'; [|done]. congruence.
  - apply H in Hk'; [|done]. congruence.
  - apply H in Hk; [|done]. congruence.
  - apply H in Hk'; [|done]. congruence.
  - apply H in Hk; [|done]. congruence.
Qed.

(** The rows of a routine that is neither the instance's routine nor the
    routine of its stored row are the same before and after a save. *)
Lemma save_rows_of_other_routines self t t' self' R :
  RoutineItem_save self t = Committed (t', self') →
  R ≠ routine (cols self) →
  (∀ k0 old, pk self = Some k0 → t !! k0 = Some old → R ≠ routine old) →
  ∀ k c, routine c = R → t' !! k = Some c ↔ t !! k = Some c.
Proof.
  intros Hsave Hne Hold k c HR. revert Hsave.
  unfold RoutineItem_save. cbv zeta.
  rewrite pk_normalize_title, priority_normalize_title, routine_normalize_title.
  pose proof (routine_normalize_title self) as Hrn.
  assert (Hupd : ∀ R1 R2 f1 f2 d1 d2 t0 k' c',
            R ≠ R1 → R ≠ R2 → routine c' = R →
            filter_update (λ c, routine_is R2 c && f2 c) d2
              (filter_update (λ c, routine_is R1 c && f1 c) d1 t0) !! k' = Some c'
            ↔ t0 !! k' = Some c').
  { intros R1 R2 f1 f2 d1 d2 t0 k' c' H1 H2 Hc'.
    rewrite !(frame_filter_update R); eauto using sel_routine_2. }
  assert (Hupd1 : ∀ R1 f1 d1 t0 k' c',
            R ≠ R1 → routine c' = R →
            filter_update (λ c, routine_is R1 c && f1 c) d1 t0 !! k' = Some c'
            ↔ t0 !! k' = Some c').
  { intros R1 f1 d1 t0 k' c' H1 Hc'.
    rewrite !(frame_filter_update R); eauto using sel_routine_2. }
  assert (Hupd3 : ∀ R1 f1 g1 d1 t0 k' c',
            R ≠ R1 → routine c' = R →
            filter_update (λ c, routine_is R1 c && f1 c && g1 c) d1 t0 !! k'
              = Some c'
            ↔ t0 !! k' = Some c').
  { intros R1 f1 g1 d1 t0 k' c' H1 Hc'.
    apply (frame_filter_update R R1); [|done..]. intros c0. apply sel_routine_3. }
  destruct (pk self) as [k0|] eqn:Hpk.
  - specialize (Hold k0). destruct (t !! k0) as [old|] eqn:Hk0.
    + specialize (Hold old eq_refl eq_refl).
      assert (Hins : ∀ t1 c1, routine c1 = routine (cols self) →
                (∀ c, routine c = R → t1 !! k0 = Some c → t !! k0 = Some c) →
                <[k0 := c1]> t1 !! k = Some c ↔ t1 !! k = Some c).
      { intros t1 c1 Hc1 Ht1. apply (frame_insert R); [congruence| |done].
        intros o Ho HRo. specialize (Ht1 o HRo Ho). congruence. }
      case_bool_decide.
      * destruct (priority old) as [A|]; simpl; [|done].
        destruct (priority (cols self)) as [P|]; intros [= Heq];
          unfold Model_save in Heq; simpl in Heq;
          rewrite ?pk_normalize_title, ?routine_normalize_title, Hpk in Heq;
          injection Heq as <- <-.
        -- rewrite Hins; [by apply Hupd|done|].
           intros c2 Hc2. by rewrite Hupd.
        -- rewrite Hins; [by apply Hupd1|done|].
           intros c2 Hc2. by rewrite Hupd1.
      * case_bool_decide.
        -- destruct (priority old) as [A|]; simpl; [|done].
           case_bool_decide; intros [= Heq];
             unfold Model_save in Heq; simpl in Heq;
             rewrite ?pk_normalize_title, ?routine_normalize_title, Hpk in Heq;
          injection Heq as <- <-.
           ++ rewrite Hins; [by apply Hupd3|done|].
              intros c2 Hc2. by rewrite Hupd3.
           ++ rewrite Hins; [by apply Hupd3|done|].
              intros c2 Hc2. by rewrite Hupd3.
        -- intros [= Heq]. unfold Model_save in Heq.
           rewrite pk_normalize_title, Hpk in Heq. injection Heq as <- <-.
           by apply Hins.
    + intros [= Heq]. unfold Model_save in Heq.
      rewrite pk_normalize_title, Hpk in Heq. injection Heq as <- <-.
      apply (frame_insert R); [congruence| |done]. intros o. by rewrite Hk0.
  - destruct (priority (cols self)) as [P|]; intros [= Heq];
      unfold Model_save in Heq; simpl in Heq;
      rewrite ?pk_normalize_title, ?routine_normalize_title, Hpk in Heq;
          injection Heq as <- <-.
    + rewrite (frame_insert R); [|congruence| |done].
      * by apply Hupd1.
      * intros o Ho. by rewrite next_pk_fresh in Ho.
    + rewrite (frame_insert R); [done|simpl; congruence| |done].
      intros o Ho. by rewrite next_pk_fresh in Ho.
Qed.

(** The same for a delete. *)
Lemma delete_rows_of_other_routines self t t' R :
  RoutineItem_delete self t = Committed t' →
  R ≠ routine (cols self) →
  (∀ k0 old, pk self = Some k0 → t !! k0 = Some old → R ≠ routine old) →
  ∀ k c, routine c = R → t' !! k = Some c ↔ t !! k = Some c.
Proof.
  intros Hdel Hne Hold k c HR. revert Hdel.
  unfold RoutineItem_delete, Model_delete. cbv zeta.
  destruct (pk self) as [k0|] eqn:Hpk; simpl; [|done].
  destruct (priority (cols self)) as [p|]; simpl; [|done].
  intros [= <-]. rewrite (frame_filter_update R); eauto using sel_routine_2.
  apply (frame_delete R); [|done]. intros o Ho HRo.
  by apply (Hold k0 o eq_refl Ho).
Qed.
End frame.

(** ** The tables the remaining branches commit *)

Section tables.
Implicit Types (t : Table) (c : Columns) (self : RoutineItem).

Lemma save_create self t :
  pk self = None →
  RoutineItem_save self t
  = Committed
      match priority (cols self) with
      | None =>
          let row :=
            set_priority
              (Some (or_zero (aggregate_max (routine_is (routine (cols self))) t) + 1))
              (cols (normalize_title self)) in
          (<[next_pk t := row]> t, mkItem (Some (next_pk t)) row)
      | Some P =>
          let t1 := filter_update
                      (λ c, routine_is (routine (cols self)) c && priority_gte P c)
                      1 t in
          (<[next_pk t1 := cols (normalize_title self)]> t1,
           mkItem (Some (next_pk t1)) (cols (normalize_title self)))
      end.
Proof.
  intros Hpk. unfold RoutineItem_save. cbv zeta.
  rewrite pk_normalize_title, Hpk, priority_normalize_title,
    routine_normalize_title.
  destruct (priority (cols self)) as [P|]; unfold Model_save; simpl;
    by rewrite pk_normalize_title, Hpk.
Qed.

Lemma save_move_across self t k old A :
  pk self = Some k → t !! k = Some old →
  routine old ≠ routine (cols self) →
  priority old = Some A →
  let t1 := filter_update
              (λ c, routine_is (routine old) c && priority_gt A c) (-1) t in
  RoutineItem_save self t
  = Committed
      match priority (cols self) with
      | None =>
          let row :=
            set_priority
              (Some (or_zero (aggregate_max (routine_is (routine (cols self))) t1) + 1))
              (cols (normalize_title self)) in
          (<[k := row]> t1, with_cols row (normalize_title self))
      | Some P =>
          (<[k := cols (normalize_title self)]>
             (filter_update
                (λ c, routine_is (routine (cols self)) c && priority_gte P c) 1 t1),
           normalize_title self)
      end.
Proof.
  intros Hpk Hk HR HA t1. subst t1. unfold RoutineItem_save. cbv zeta.
  rewrite pk_normalize_title, Hpk, Hk, priority_normalize_title,
    routine_normalize_title, HA.
  rewrite bool_decide_eq_true_2 by done. simpl.
  destruct (priority (cols self)) as [P|]; unfold Model_save; simpl;
    by rewrite pk_normalize_title, Hpk.
Qed.

Lemma delete_table self t k A :
  pk self = Some k → priority (cols self) = Some A →
  RoutineItem_delete self t
  = Committed
      (filter_update
         (λ c, routine_is (routine (cols self)) c && priority_gt A c) (-1)
         (delete k t)).
Proof.
  intros Hpk HA. unfold RoutineItem_delete, Model_delete. cbv zeta.
  by rewrite Hpk, HA.
Qed.
End tables.

(** ** Density of the committed tables *)

Section density.
Implicit Types (t : Table) (c : Columns) (self : RoutineItem).

Lemma renumber_bump_above V n k P :
  dense_slots V n → n < P → renumber (bump P) (V k) = V k.
Proof.
  intros HV HP. destruct (V k) as [[p|]|] eqn:Hk; [|done..]. simpl.
  destruct (ds_range _ _ HV _ _ Hk) as (q & [= <-] & Hq).
  unfold bump. by rewrite decide_False by lia.
Qed.

Lemma dense_upto_ext R t t' n :
  (∀ k, slot R t' k = slot R t k) → dense_upto R t n → dense_upto R t' n.
Proof.
  intros He Hd. apply dense_upto_slots.
  apply (dense_slots_ext (slot R t)); [done|]. by apply dense_upto_slots.
Qed.

(** Placing the row [row] of key [k] at slot [P] of routine [R], whose
    other rows were renumbered around [P]. *)
Lemma dense_upto_placed R t t1 n k row P :
  dense_upto R t n →
  slot R t k = None →
  (∀ k', k' ≠ k → slot R t1 k' = renumber (bump P) (slot R t k')) →
  routine row = R → priority row = Some P → 1 ≤ P ≤ n + 1 →
  dense_upto R (<[k := row]> t1) (n + 1).
Proof.
  intros Hd Hk Hoth HR HP Hr. apply dense_upto_slots.
  apply (dense_slots_insert (slot R t) _ n k P); [by apply dense_upto_slots|done| |done|].
  - by rewrite slot_insert, decide_True, decide_True, HP.
  - intros k' Hne. rewrite slot_insert, decide_False by done. by apply Hoth.
Qed.

Lemma create_dense R self t n :
  dense_upto R t n → 0 ≤ n →
  pk self = None → routine (cols self) = R →
  (∀ P, priority (cols self) = Some P → 1 ≤ P ≤ n + 1) →
  ∃ t' self', RoutineItem_save self t = Committed (t', self') ∧
              dense_upto R t' (n + 1).
Proof.
  intros Hd Hn Hpk HR HP. rewrite (save_create _ _ Hpk). rewrite HR.
  destruct (priority (cols self)) as [P|] eqn:HPe; cbv zeta;
    eexists _, _; (split; [reflexivity|]).
  - set (t1 := filter_update _ 1 t).
    apply (dense_upto_placed R t t1 n _ _ P); [done| | | | |by apply HP].
    + apply slot_None. intros c Hc. unfold t1 in Hc.
      by rewrite next_pk_fresh_before in Hc.
    + intros k' _. apply slot_bump.
    + by rewrite routine_normalize_title.
    + by rewrite priority_normalize_title.
  - rewrite (dense_or_zero_max R t n) by done.
    apply (dense_upto_placed R t t n _ _ (n + 1)); [done| | | |done|lia].
    + apply slot_None. intros c Hc. by rewrite next_pk_fresh in Hc.
    + intros k' _. symmetry. apply (renumber_bump_above _ n); [|lia].
      by apply dense_upto_slots.
    + simpl. by rewrite routine_normalize_title.
Qed.

Lemma move_within_dense R self t n k old B :
  dense_upto R t n →
  pk self = Some k → t !! k = Some old →
  routine old = R → routine (cols self) = R →
  priority (cols self) = Some B → 1 ≤ B ≤ n →
  ∃ t' self', RoutineItem_save self t = Committed (t', self') ∧
              dense_upto R t' n.
Proof.
  intros Hd Hpk Hk HRo HRs HB Hr.
  destruct (dense_range _ _ _ Hd k old Hk HRo) as (A & HA & HAr).
  assert (HRso : routine (cols self) = routine old) by congruence.
  assert (Hslot : slot R t k = Some (Some A)) by (apply slot_Some; eauto).
  apply dense_upto_slots in Hd as HV.
  assert (Hmv : ∀ k', k' ≠ k →
            renumber (λ p, if decide (p = A) then p else bump B (unbump A p))
              (slot R t k')
            = renumber (λ p, bump B (unbump A p)) (slot R t k')).
  { intros k' Hne. destruct (slot R t k') as [[p|]|] eqn:Hp; [|done..]. simpl.
    rewrite decide_False; [done|]. intros ->.
    by apply Hne, (ds_unique _ _ HV k' k (Some A)). }
  destruct (decide (B = A)) as [->|Hne].
  - eexists _, _. split; [apply (save_same_priority self t k old); congruence|].
    apply (dense_upto_ext R t); [|done]. intros k'. rewrite slot_insert.
    case_decide as Hk'; [|done]. subst k'.
    by rewrite routine_normalize_title, priority_normalize_title,
      decide_True, Hslot, HB.
  - destruct (decide (B < A)).
    + eexists _, _. split; [by apply (save_move_up self t k old A B)|].
      apply dense_upto_slots.
      apply (dense_slots_move (slot R t) _ n k A B); [done..| |done|].
      * by rewrite slot_insert, decide_True, routine_normalize_title,
          priority_normalize_title, decide_True, HB.
      * intros k' Hk'. rewrite slot_insert, decide_False by done.
        rewrite HRo, slot_move_up by done. by apply Hmv.
    + eexists _, _. split; [apply (save_move_down self t k old A B); done || lia|].
      apply dense_upto_slots.
      apply (dense_slots_move (slot R t) _ n k A B); [done..| |done|].
      * by rewrite slot_insert, decide_True, routine_normalize_title,
          priority_normalize_title, decide_True, HB.
      * intros k' Hk'. rewrite slot_insert, decide_False by done.
        rewrite HRo, slot_move_down by lia. by apply Hmv.
Qed.

Lemma move_across_source_dense R self t n k old :
  dense_upto R t n →
  pk self = Some k → t !! k = Some old →
  routine old = R → routine (cols self) ≠ R →
  ∃ t' self', RoutineItem_save self t = Committed (t', self') ∧
              dense_upto R t' (n - 1).
Proof.
  intros Hd Hpk Hk HRo HRs.
  destruct (dense_range _ _ _ Hd k old Hk HRo) as (A & HA & HAr).
  rewrite (save_move_across _ _ _ old A Hpk Hk) by congruence.
  apply dense_upto_slots in Hd as HV. rewrite HRo.
  assert (Hslot : slot R t k = Some (Some A)) by (apply slot_Some; eauto).
  destruct (priority (cols self)) as [P|]; cbv zeta;
    eexists _, _; (split; [reflexivity|]); apply dense_upto_slots;
    apply (dense_slots_remove (slot R t) _ n k A); try done.
  - rewrite slot_insert, decide_True by done.
    by rewrite routine_normalize_title, decide_False.
  - intros k' Hne. rewrite slot_insert, decide_False by done.
    rewrite slot_filter_update_other by congruence. apply slot_unbump.
  - rewrite slot_insert, decide_True by done. simpl.
    by rewrite routine_normalize_title, decide_False.
  - intros k' Hne. rewrite slot_insert, decide_False by done.
    apply slot_unbump.
Qed.

Lemma move_across_target_dense R self t n k old :
  dense_upto R t n → 0 ≤ n →
  pk self = Some k → t !! k = Some old →
  routine old ≠ R → routine (cols self) = R →
  is_Some (priority old) →
  (∀ P, priority (cols self) = Some P → 1 ≤ P ≤ n + 1) →
  ∃ t' self', RoutineItem_save self t = Committed (t', self') ∧
              dense_upto R t' (n + 1).
Proof.
  intros Hd Hn Hpk Hk HRo HRs [A HA] HP.
  rewrite (save_move_across _ _ _ old A Hpk Hk) by congruence.
  rewrite HRs. cbv zeta.
  set (t1 := filter_update _ (-1) t).
  assert (Ht1 : ∀ k', slot R t1 k' = slot R t k').
  { intros k'. apply slot_filter_update_other. congruence. }
  assert (Hslot : slot R t k = None).
  { apply slot_None. intros c Hc. congruence. }
  destruct (priority (cols self)) as [P|] eqn:HPe;
    eexists _, _; (split; [reflexivity|]).
  - apply (dense_upto_placed R t _ n _ _ P); [done..| | | |by apply HP].
    + intros k' _. by rewrite slot_bump, Ht1.
    + by rewrite routine_normalize_title.
    + by rewrite priority_normalize_title.
  - rewrite (dense_or_zero_max R t1 n); [|by apply (dense_upto_ext R t)|done].
    apply (dense_upto_placed R t _ n _ _ (n + 1)); [done..| | |done|lia].
    + intros k' _. rewrite Ht1. symmetry.
      apply (renumber_bump_above _ n); [|lia]. by apply dense_upto_slots.
    + simpl. by rewrite routine_normalize_title.
Qed.

Lemma delete_dense R self t n k old :
  dense_upto R t n →
  pk self = Some k → t !! k = Some old →
  routine old = R → routine (cols self) = R →
  priority (cols self) = priority old →
  ∃ t', RoutineItem_delete self t = Committed t' ∧ dense_upto R t' (n - 1).
Proof.
  intros Hd Hpk Hk HRo HRs Hp.
  destruct (dense_range _ _ _ Hd k old Hk HRo) as (A & HA & HAr).
  rewrite (delete_table _ _ k A Hpk) by congruence. rewrite HRs.
  eexists. split; [reflexivity|]. apply dense_upto_slots.
  apply (dense_slots_remove (slot R t) _ n k A); [by apply dense_upto_slots|..].
  - apply slot_Some. eauto.
  - rewrite slot_unbump, slot_delete. by rewrite decide_True.
  - intros k' Hne. rewrite slot_unbump, slot_delete. by rewrite decide_False.
Qed.
End density.

(** ** Frame *)

Section frame_claim.
Implicit Types (t : Table) (c : Columns) (self : RoutineItem).

(** C10. A save or a delete leaves the rows of every routine other than
    the instance's routine and the routine of its stored row as they
    were: for a create, an update inside a routine and a delete these
    are one routine, for a move across routines the source and the
    target. *)
Theorem other_routines_untouched self t R :
  R ≠ routine (cols self) →
  (∀ k0 old, pk self = Some k0 → t !! k0 = Some old → R ≠ routine old) →
  (∀ t' self', RoutineItem_save self t = Committed (t', self') →
     ∀ k c, routine c = R → t' !! k = Some c ↔ t !! k = Some c) ∧
  (∀ t', RoutineItem_delete self t = Committed t' →
     ∀ k c, routine c = R → t' !! k = Some c ↔ t !! k = Some c).
Proof.
  intros Hne Hold. split.
  - intros t' self' Hs. by apply (save_rows_of_other_routines self t t' self').
  - intros t' Hs. by apply (delete_rows_of_other_routines self t t').
Qed.

Lemma other_routines_untouched_witness :
  ∃ t' self',
    RoutineItem_save (mkItem (Some 3) (item 1 "C" 1)) sample
      = Committed (t', self') ∧
    (t' !! 5 = Some (item 2 "X" 1) ↔ sample !! 5 = Some (item 2 "X" 1)).
Proof.
  destruct (RoutineItem_save (mkItem (Some 3) (item 1 "C" 1)) sample)
    as [[t' self']|e] eqn:Hs; [|vm_compute in Hs; discriminate Hs].
  exists t', self'. split; [reflexivity|].
  refine (proj1 (other_routines_untouched
                   (mkItem (Some 3) (item 1 "C" 1)) sample 2 _ _)
            t' self' Hs 5 (item 2 "X" 1) eq_refl).
  - discriminate.
  - intros k0 old [= <-] Hold. vm_compute in Hold.
    injection Hold as <-. discriminate.
Defined.
End frame_claim.

(** ** Deletion *)

Section deletion.
Implicit Types (t : Table) (c : Columns) (self : RoutineItem).

Lemma sel_gt_true R A c q :
  routine c = R → priority c = Some q → A < q →
  routine_is R c && priority_gt A c = true.
Proof.
  intros HR Hq Hlt. unfold routine_is, priority_gt. rewrite Hq.
  by rewrite !bool_decide_eq_true_2.
Qed.

Lemma sel_gt_false R A c q :
  priority c = Some q → q ≤ A →
  routine_is R c && priority_gt A c = false.
Proof.
  intros Hq Hlt. unfold routine_is, priority_gt. rewrite Hq.
  rewrite (bool_decide_eq_false_2 (A < q)) by lia. apply andb_false_r.
Qed.

Lemma sel_other_routine R f c :
  routine c ≠ R → routine_is R c && f c = false.
Proof. intros HR. unfold routine_is. by rewrite bool_decide_eq_false_2. Qed.

(** C7. Deleting the item at priority [A] of a densely ordered routine
    removes its row, decrements the items of the routine after [A] and
    leaves those before [A] unchanged; the routine is then densely
    ordered over one item fewer, and the remaining items keep their
    relative order. *)
Theorem delete_compacts self t k old R A :
  dense R t →
  pk self = Some k → t !! k = Some old →
  routine old = R → priority old = Some A →
  routine (cols self) = R → priority (cols self) = Some A →
  ∃ t',
    RoutineItem_delete self t = Committed t' ∧
    t' !! k = None ∧
    (∀ k' c q, k' ≠ k → t !! k' = Some c → routine c = R →
               priority c = Some q → A < q →
               t' !! k' = Some (set_priority (Some (q - 1)) c)) ∧
    (∀ k' c q, k' ≠ k → t !! k' = Some c → routine c = R →
               priority c = Some q → q < A →
               t' !! k' = Some c) ∧
    count R t' = count R t - 1 ∧
    dense R t' ∧
    (∀ k1 c1 q1 c1' q1' k2 c2 q2 c2' q2',
       t !! k1 = Some c1 → routine c1 = R → priority c1 = Some q1 →
       t' !! k1 = Some c1' → priority c1' = Some q1' →
       t !! k2 = Some c2 → routine c2 = R → priority c2 = Some q2 →
       t' !! k2 = Some c2' → priority c2' = Some q2' →
       q1 < q2 ↔ q1' < q2').
Proof.
  intros Hd Hpk Hk HRo HA HRs HAs.
  destruct (delete_dense R self t (count R t) k old Hd Hpk Hk HRo HRs)
    as (t' & Hdel & Hd'); [congruence|].
  destruct (dense_range _ _ _ Hd k old Hk HRo) as (A' & HA' & HAr).
  rewrite HA in HA'. simplify_eq.
  assert (Hcount : count (routine old) t' = count (routine old) t - 1).
  { apply dense_upto_count; [lia|done]. }
  exists t'. split; [done|].
  rewrite (delete_table _ _ k A' Hpk HAs) in Hdel. injection Hdel as <-.
  rewrite HRs in *.
  assert (Hrow : ∀ k' c q, k' ≠ k → t !! k' = Some c → routine c = routine old →
            priority c = Some q →
            q ≠ A' ∧
            filter_update (λ c, routine_is (routine old) c && priority_gt A' c)
              (-1) (delete k t) !! k'
            = Some (set_priority (Some (if decide (A' < q) then q - 1 else q)) c)).
  { intros k' c q Hne Hk' HRc Hq. split.
    - intros ->. apply Hne.
      eapply (dense_unique _ _ _ Hd k' c Hk' k old Hk); congruence.
    - rewrite (lookup_filter_update_Some _ _ _ _ c)
        by (by rewrite lookup_delete_ne).
      case_decide.
      + rewrite (sel_gt_true _ _ _ q) by done. by rewrite (shift_Some _ _ q).
      + rewrite (sel_gt_false _ _ _ q) by (done || lia).
        by rewrite <- Hq, set_priority_id. }
  split_and!.
  - apply lookup_filter_update_None, lookup_delete_eq.
  - intros k' c q Hne Hk' HRc Hq Hlt.
    destruct (Hrow k' c q Hne Hk' HRc Hq) as [_ ->]. by rewrite decide_True.
  - intros k' c q Hne Hk' HRc Hq Hlt.
    destruct (Hrow k' c q Hne Hk' HRc Hq) as [_ ->].
    rewrite decide_False by lia. by rewrite <- Hq, set_priority_id.
  - done.
  - unfold dense. by rewrite Hcount.
  - intros k1 c1 q1 c1' q1' k2 c2 q2 c2' q2'
      Hk1 HR1 Hq1 Hk1' Hq1' Hk2 HR2 Hq2 Hk2' Hq2'.
    assert (k1 ≠ k).
    { intros ->. by rewrite lookup_filter_update_None in Hk1'
        by apply lookup_delete_eq. }
    assert (k2 ≠ k).
    { intros ->. by rewrite lookup_filter_update_None in Hk2'
        by apply lookup_delete_eq. }
    destruct (Hrow k1 c1 q1 ltac:(done) Hk1 HR1 Hq1) as [Hn1 He1].
    destruct (Hrow k2 c2 q2 ltac:(done) Hk2 HR2 Hq2) as [Hn2 He2].
    rewrite He1 in Hk1'. rewrite He2 in Hk2'. simplify_eq. simpl in *.
    simplify_eq. repeat case_decide; lia.
Qed.

Lemma delete_compacts_witness :
  dense 1 sample ∧
  ∃ t', RoutineItem_delete (mkItem (Some 2) (item 1 "B" 2)) sample = Committed t' ∧
        t' !! 2 = None ∧
        t' !! 3 = Some (item 1 "C" 2) ∧
        dense 1 t'.
Proof.
  assert (Hd : dense 1 sample) by (apply (bool_decide_unpack _); vm_compute; exact I).
  split; [exact Hd|].
  destruct (delete_compacts (mkItem (Some 2) (item 1 "B" 2)) sample 2
              (item 1 "B" 2) 1 2 Hd eq_refl eq_refl eq_refl eq_refl eq_refl
              eq_refl) as (t' & Hs & Hk & Hup & _ & _ & Hd' & _).
  exists t'. split_and!; [exact Hs|exact Hk| |exact Hd'].
  exact (Hup 3 (item 1 "C" 3) 3 ltac:(discriminate) eq_refl eq_refl eq_refl eq_refl).
Defined.
End deletion.

(** ** Moves across routines *)

Section across.
Implicit Types (t : Table) (c : Columns) (self : RoutineItem).

Lemma sel_gte_true R P c q :
  routine c = R → priority c = Some q → P ≤ q →
  routine_is R c && priority_gte P c = true.
Proof.
  intros HR Hq Hle. unfold routine_is, priority_gte. rewrite Hq.
  by rewrite !bool_decide_eq_true_2.
Qed.

Lemma sel_gte_false R P c q :
  priority c = Some q → q < P →
  routine_is R c && priority_gte P c = false.
Proof.
  intros Hq Hlt. unfold routine_is, priority_gte. rewrite Hq.
  rewrite (bool_decide_eq_false_2 (P ≤ q)) by lia. apply andb_false_r.
Qed.

(** Closing the gap in the old routine does not change what the largest
    priority of another routine is. *)
Lemma or_zero_max_after_gap R1 R2 A t :
  R1 ≠ R2 →
  or_zero (aggregate_max (routine_is R2)
             (filter_update (λ c, routine_is R1 c && priority_gt A c) (-1) t))
  = or_zero (aggregate_max (routine_is R2) t).
Proof.
  intros Hne.
  set (t1 := filter_update _ (-1) t).
  assert (Hrows : ∀ k c, routine c = R2 → t1 !! k = Some c ↔ t !! k = Some c).
  { intros k c HR. apply (frame_filter_update R2 R1); [|done..].
    intros c'. apply sel_routine_2. }
  rewrite !or_zero_default.
  destruct (aggregate_max (routine_is R2) t1) as [m1|] eqn:H1,
           (aggregate_max (routine_is R2) t) as [m|] eqn:H; simpl.
  - apply aggregate_max_Some in H1 as [(k1 & c1 & Hk1 & HR1%routine_is_true & Hp1) Hle1].
    apply aggregate_max_Some in H as [(k & c & Hk & HR%routine_is_true & Hp) Hle].
    apply Hrows in Hk1; [|done]. apply Hrows in Hk; [|done].
    specialize (Hle k1 c1 m1 Hk1 (proj2 (routine_is_true _ _) HR1) Hp1).
    specialize (Hle1 k c m Hk (proj2 (routine_is_true _ _) HR) Hp). lia.
  - apply aggregate_max_Some in H1 as [(k1 & c1 & Hk1 & HR1 & Hp1) _].
    apply Hrows in Hk1; [|by apply routine_is_true].
    by rewrite (aggregate_max_None _ _ H k1 c1 Hk1 HR1) in Hp1.
  - apply aggregate_max_Some in H as [(k & c & Hk & HR & Hp) _].
    apply Hrows in Hk; [|by apply routine_is_true].
    by rewrite (aggregate_max_None _ _ H1 k c Hk HR) in Hp.
  - done.
Qed.

(** C6. Moving the item at priority [A] of a densely ordered routine [R1]
    to another routine [R2]: the items of [R1] after [A] are decremented,
    so [R1] is densely ordered over one item fewer; in [R2] the item is
    appended at the largest priority plus one when its new priority is
    absent, and otherwise stored at the new priority [P] after every
    item of [R2] at a priority [>= P] is incremented. *)
Theorem move_across_routines self t k old R1 R2 A :
  dense R1 t →
  pk self = Some k → t !! k = Some old →
  routine old = R1 → priority old = Some A →
  routine (cols self) = R2 → R1 ≠ R2 →
  ∃ t' self',
    RoutineItem_save self t = Committed (t', self') ∧
    t' !! k = Some (cols self') ∧ routine (cols self') = R2 ∧
    (∀ k' c q, k' ≠ k → t !! k' = Some c → routine c = R1 →
               priority c = Some q → A < q →
               t' !! k' = Some (set_priority (Some (q - 1)) c)) ∧
    (∀ k' c q, k' ≠ k → t !! k' = Some c → routine c = R1 →
               priority c = Some q → q < A →
               t' !! k' = Some c) ∧
    count R1 t' = count R1 t - 1 ∧
    dense R1 t' ∧
    (priority (cols self) = None →
       (∀ k' c, t !! k' = Some c → routine c = R2 → t' !! k' = Some c) ∧
       ((∀ k' c, t !! k' = Some c → routine c ≠ R2) →
        priority (cols self') = Some 1) ∧
       (∀ m, is_max_priority R2 t m → priority (cols self') = Some (m + 1))) ∧
    (∀ P, priority (cols self) = Some P →
       priority (cols self') = Some P ∧
       (∀ k' c q, t !! k' = Some c → routine c = R2 →
                  priority c = Some q → P ≤ q →
                  t' !! k' = Some (set_priority (Some (q + 1)) c)) ∧
       (∀ k' c q, t !! k' = Some c → routine c = R2 →
                  priority c = Some q → q < P →
                  t' !! k' = Some c)).
Proof.
  intros Hd Hpk Hk HRo HA HRs Hne.
  destruct (move_across_source_dense R1 self t (count R1 t) k old Hd Hpk Hk HRo)
    as (t' & self' & Hsave & Hd'); [congruence|].
  destruct (dense_range _ _ _ Hd k old Hk HRo) as (A' & HA' & HAr).
  rewrite HA in HA'. simplify_eq.
  assert (Hcount : count (routine old) t' = count (routine old) t - 1).
  { apply dense_upto_count; [lia|done]. }
  exists t', self'. split; [done|].
  rewrite (save_move_across _ _ _ old A' Hpk Hk) in Hsave by congruence.
  cbv zeta in Hsave.
  rewrite or_zero_max_after_gap in Hsave by done.
  set (t1 := filter_update _ (-1) t) in Hsave.
  assert (Hk2 : ∀ k' c, t !! k' = Some c → routine c = routine (cols self) →
                        k' ≠ k ∧ t1 !! k' = Some c).
  { intros k' c Hk' HRc. split; [intros ->; congruence|]. unfold t1.
    rewrite (lookup_filter_update_Some _ _ _ _ c) by done.
    by rewrite sel_other_routine by congruence. }
  assert (Hk1 : ∀ k' c q, k' ≠ k → t !! k' = Some c → routine c = routine old →
            priority c = Some q →
            q ≠ A' ∧
            t1 !! k' = Some (set_priority
                               (Some (if decide (A' < q) then q - 1 else q)) c)).
  { intros k' c q Hk'ne Hk' HRc Hq. split.
    - intros ->. apply Hk'ne.
      eapply (dense_unique _ _ _ Hd k' c Hk' k old Hk); congruence.
    - unfold t1. rewrite (lookup_filter_update_Some _ _ _ _ c) by done.
      case_decide.
      + rewrite (sel_gt_true _ _ _ q) by done. by rewrite (shift_Some _ _ q).
      + rewrite (sel_gt_false _ _ _ q) by (done || lia).
        by rewrite <- Hq, set_priority_id. }
  destruct (priority (cols self)) as [P|] eqn:HP; injection Hsave as <- <-.
  - split_and!.
    + apply lookup_insert_eq.
    + apply routine_normalize_title.
    + intros k' c q Hk'ne Hk' HRc Hq Hlt.
      destruct (Hk1 k' c q Hk'ne Hk' HRc Hq) as [_ Ht1].
      rewrite lookup_insert_ne by done.
      rewrite (lookup_filter_update_Some _ _ _ _ _ Ht1).
      rewrite sel_other_routine by (simpl; congruence).
      by rewrite decide_True.
    + intros k' c q Hk'ne Hk' HRc Hq Hlt.
      destruct (Hk1 k' c q Hk'ne Hk' HRc Hq) as [_ Ht1].
      rewrite lookup_insert_ne by done.
      rewrite (lookup_filter_update_Some _ _ _ _ _ Ht1).
      rewrite sel_other_routine by (simpl; congruence).
      rewrite decide_False by lia. by rewrite <- Hq, set_priority_id.
    + done.
    + unfold dense. by rewrite Hcount.
    + done.
    + intros P' [= <-]. split_and!.
      * by rewrite priority_normalize_title.
      * intros k' c q Hk' HRc Hq Hle. destruct (Hk2 k' c Hk' HRc) as [Hk'ne Ht1].
        rewrite lookup_insert_ne by done.
        rewrite (lookup_filter_update_Some _ _ _ _ _ Ht1).
        rewrite (sel_gte_true _ _ _ q) by done. by rewrite (shift_Some _ _ q).
      * intros k' c q Hk' HRc Hq Hlt. destruct (Hk2 k' c Hk' HRc) as [Hk'ne Ht1].
        rewrite lookup_insert_ne by done.
        rewrite (lookup_filter_update_Some _ _ _ _ _ Ht1).
        by rewrite (sel_gte_false _ _ _ q).
  - split_and!.
    + apply lookup_insert_eq.
    + simpl. apply routine_normalize_title.
    + intros k' c q Hk'ne Hk' HRc Hq Hlt.
      destruct (Hk1 k' c q Hk'ne Hk' HRc Hq) as [_ Ht1].
      rewrite lookup_insert_ne by done. rewrite Ht1. by rewrite decide_True.
    + intros k' c q Hk'ne Hk' HRc Hq Hlt.
      destruct (Hk1 k' c q Hk'ne Hk' HRc Hq) as [_ Ht1].
      rewrite lookup_insert_ne by done. rewrite Ht1.
      rewrite decide_False by lia. by rewrite <- Hq, set_priority_id.
    + done.
    + unfold dense. by rewrite Hcount.
    + intros _. split_and!.
      * intros k' c Hk' HRc. destruct (Hk2 k' c Hk' HRc) as [Hk'ne Ht1].
        by rewrite lookup_insert_ne.
      * intros Hno. simpl. rewrite or_zero_max_empty; [done|].
        intros k' c Hk' HRc. by destruct (Hno k' c Hk').
      * intros m Hm. simpl. by rewrite (or_zero_max_is_max _ _ m).
    + done.
Qed.

Lemma move_across_routines_witness :
  dense 1 sample ∧
  ∃ t' self',
    RoutineItem_save (mkItem (Some 2) (item 2 "B" 1)) sample
      = Committed (t', self') ∧
    t' !! 1 = Some (item 1 "A" 1) ∧ t' !! 3 = Some (item 1 "C" 2) ∧
    t' !! 2 = Some (item 2 "B" 1) ∧ t' !! 5 = Some (item 2 "X" 2) ∧
    dense 1 t'.
Proof.
  assert (Hd : dense 1 sample) by (apply (bool_decide_unpack _); vm_compute; exact I).
  split; [exact Hd|].
  destruct (move_across_routines (mkItem (Some 2) (item 2 "B" 1)) sample 2
              (item 1 "B" 2) 1 2 2 Hd eq_refl eq_refl eq_refl eq_refl eq_refl
              ltac:(discriminate))
    as (t' & self' & Hs & Hk & _ & Hup & Hlow & _ & Hd' & _ & Hins).
  destruct (Hins 1 eq_refl) as (Hp & Hshift & _).
  exists t', self'. split_and!; [exact Hs| | | | |exact Hd'].
  - exact (Hlow 1 (item 1 "A" 1) 1 ltac:(discriminate) eq_refl eq_refl eq_refl
             eq_refl).
  - exact (Hup 3 (item 1 "C" 3) 3 ltac:(discriminate) eq_refl eq_refl eq_refl
             eq_refl).
  - pose proof Hs as Hs'. vm_compute in Hs'. injection Hs' as _ <-. exact Hk.
  - exact (Hshift 5 (item 2 "X" 1) 1 eq_refl eq_refl eq_refl ltac:(discriminate)).
Defined.
End across.

(** ** The dense-ordering invariant under single requests *)

Section invariant.
Implicit Types (t : Table) (c : Columns) (self : RoutineItem).

Lemma save_commits self t :
  (∀ k old, pk self = Some k → t !! k = Some old → is_Some (priority old)) →
  ∃ t' self', RoutineItem_save self t = Committed (t', self').
Proof.
  intros Hold. unfold RoutineItem_save. cbv zeta. rewrite pk_normalize_title.
  destruct (pk self) as [k|] eqn:Hpk.
  - destruct (t !! k) as [old|] eqn:Hk.
    + destruct (Hold k old eq_refl Hk) as [A ->]. simpl.
      repeat case_bool_decide;
        destruct (priority (cols (normalize_title self)));
        match goal with
        | |- ∃ _ _, Committed ?p = _ => exists p.1, p.2; by destruct p
        end.
    + match goal with
      | |- ∃ _ _, Committed ?p = _ => exists p.1, p.2; by destruct p
      end.
  - destruct (priority (cols (normalize_title self)));
      match goal with
      | |- ∃ _ _, Committed ?p = _ => exists p.1, p.2; by destruct p
      end.
Qed.

Lemma dense_frame R t t' :
  (∀ k c, routine c = R → t' !! k = Some c ↔ t !! k = Some c) →
  dense R t → dense R t'.
Proof.
  intros Hrows Hd. apply (dense_upto_dense R t' (count R t)).
  - apply count_nonneg.
  - apply (dense_upto_ext R t); [|done]. by apply slot_ext_rows.
Qed.

Lemma run_save self t t' self' :
  RoutineItem_save self t = Committed (t', self') →
  run (Save self) t = Committed t'.
Proof. intros H. simpl. by rewrite H. Qed.

(** C1 (as amended). A routine whose priorities are exactly
    [1..count] without duplicates is so again after one admissible
    request: a create or a move into the routine with no priority or one
    in [1..count+1], an update inside the routine to an explicit
    priority in [1..count], a move out of the routine, a delete of a
    stored item through an instance that agrees with its row, or any
    such request on another routine; and the request commits. *)
Theorem dense_preserved R t rq :
  dense R t →
  admissible t rq →
  ∃ t', run rq t = Committed t' ∧ dense R t'.
Proof.
  intros Hd Hadm. pose proof (count_nonneg R t) as Hn.
  destruct Hadm as [self Hpk HP | self k old P Hpk Hk HR Hold HP Hr
                   | self k old Hpk Hk HR Hold HP | self k old Hpk Hk HR Hp Hold].
  - destruct (decide (routine (cols self) = R)) as [HRs|HRs].
    + rewrite HRs in HP.
      destruct (create_dense R self t (count R t) Hd Hn Hpk HRs HP)
        as (t' & self' & Hs & Hd').
      exists t'. split; [by eapply run_save|].
      apply (dense_upto_dense _ _ (count R t + 1)); [lia|done].
    + destruct (save_commits self t) as (t' & self' & Hs); [congruence|].
      exists t'. split; [by eapply run_save|].
      apply (dense_frame R t); [|done].
      apply (save_rows_of_other_routines _ _ _ _ _ Hs); congruence.
  - destruct (decide (routine old = R)) as [HRo|HRo].
    + assert (HRs : routine (cols self) = R) by congruence.
      rewrite HRo in Hr.
      destruct (move_within_dense R self t (count R t) k old P
                  Hd Hpk Hk HRo HRs HP Hr) as (t' & self' & Hs & Hd').
      exists t'. split; [by eapply run_save|].
      by apply (dense_upto_dense _ _ (count R t)).
    + destruct (save_commits self t) as (t' & self' & Hs); [congruence|].
      exists t'. split; [by eapply run_save|].
      apply (dense_frame R t); [|done].
      apply (save_rows_of_other_routines _ _ _ _ _ Hs); congruence.
  - destruct (decide (routine old = R)) as [HRo|HRo];
      [|destruct (decide (routine (cols self) = R)) as [HRs|HRs]].
    + assert (HRs : routine (cols self) ≠ R) by congruence.
      destruct (move_across_source_dense R self t (count R t) k old
                  Hd Hpk Hk HRo HRs) as (t' & self' & Hs & Hd').
      exists t'. split; [by eapply run_save|].
      destruct (dense_range _ _ _ Hd k old Hk HRo) as (A & _ & HA).
      apply (dense_upto_dense _ _ (count R t - 1)); [lia|done].
    + rewrite HRs in HP.
      destruct (move_across_target_dense R self t (count R t) k old
                  Hd Hn Hpk Hk HRo HRs Hold HP) as (t' & self' & Hs & Hd').
      exists t'. split; [by eapply run_save|].
      apply (dense_upto_dense _ _ (count R t + 1)); [lia|done].
    + destruct (save_commits self t) as (t' & self' & Hs); [congruence|].
      exists t'. split; [by eapply run_save|].
      apply (dense_frame R t); [|done].
      apply (save_rows_of_other_routines _ _ _ _ _ Hs); congruence.
  - destruct Hold as [A HA].
    destruct (decide (routine old = R)) as [HRo|HRo].
    + assert (HRs : routine (cols self) = R) by congruence.
      destruct (delete_dense R self t (count R t) k old
                  Hd Hpk Hk HRo HRs Hp) as (t' & Hs & Hd').
      exists t'. split; [done|].
      destruct (dense_range _ _ _ Hd k old Hk HRo) as (A' & _ & HA').
      apply (dense_upto_dense _ _ (count R t - 1)); [lia|done].
    + assert (Hdel := delete_table self t k A Hpk ltac:(congruence)).
      eexists. split; [exact Hdel|].
      apply (dense_frame R t); [|done].
      apply (delete_rows_of_other_routines self t _ R Hdel); [congruence|].
      intros k0 old0 ? ?. congruence.
Qed.

Lemma dense_preserved_witness :
  dense 1 sample ∧
  admissible sample (Save (mkItem None (item 1 "E" 2))) ∧
  ∃ t', run (Save (mkItem None (item 1 "E" 2))) sample = Committed t' ∧
        dense 1 t'.
Proof.
  assert (Hd : dense 1 sample) by (apply (bool_decide_unpack _); vm_compute; exact I).
  assert (Ha : admissible sample (Save (mkItem None (item 1 "E" 2)))).
  { apply adm_create; [reflexivity|].
    intros P [= <-]. vm_compute. split; discriminate. }
  split; [exact Hd|]. split; [exact Ha|].
  exact (dense_preserved 1 sample _ Hd Ha).
Defined.

(** C1 as stated fails: creating an item with an explicit priority beyond
    the end of a densely ordered routine commits and leaves a gap. *)
Lemma dense_lost_on_out_of_range_create :
  dense 1 sample ∧
  run (Save (mkItem None (item 1 "E" 9))) sample
    = Committed (<[6 := item 1 "E" 9]> sample) ∧
  ¬ dense 1 (<[6 := item 1 "E" 9]> sample).
Proof.
  split_and!.
  - apply (bool_decide_unpack _). vm_compute. exact I.
  - vm_compute. reflexivity.
  - apply (bool_decide_eq_false_1 (dense 1 (<[6 := item 1 "E" 9]> sample))).
    vm_compute. reflexivity.
Qed.
End invariant.

(** ** Scenarios *)

Section scenarios.

(** A(1), B(2); creating E with no priority stores E(3). *)
Example scenario_append :
  RoutineItem_save (mkItem None (mkColumns 1 "e" None true None))
    (<[1 := item 1 "A" 1]> (<[2 := item 1 "B" 2]> ∅))
  = Committed (<[3 := item 1 "E" 3]> (<[1 := item 1 "A" 1]> (<[2 := item 1 "B" 2]> ∅)),
               mkItem (Some 3) (item 1 "E" 3)).
Proof. vm_compute. reflexivity. Qed.

(** A(1), B(2), C(3), D(4); moving C to 1 gives C(1), A(2), B(3), D(4), and
    moving it back to 3 gives the first table again. *)
Example scenario_move_and_back :
  RoutineItem_save (mkItem (Some 3) (item 1 "C" 1)) sample
  = Committed (<[1 := item 1 "A" 2]> (<[2 := item 1 "B" 3]> (<[3 := item 1 "C" 1]>
               (<[4 := item 1 "D" 4]> (<[5 := item 2 "X" 1]> ∅)))),
               mkItem (Some 3) (item 1 "C" 1)) ∧
  RoutineItem_save (mkItem (Some 3) (item 1 "C" 3))
    (<[1 := item 1 "A" 2]> (<[2 := item 1 "B" 3]> (<[3 := item 1 "C" 1]>
     (<[4 := item 1 "D" 4]> (<[5 := item 2 "X" 1]> ∅)))))
  = Committed (sample, mkItem (Some 3) (item 1 "C" 3)).
Proof. split; vm_compute; reflexivity. Qed.

(** Routine 1: A(1), B(2), C(3), D(4); routine 2: X(1). Moving B to routine
    2 at priority 1 gives A(1), C(2), D(3) and B(1), X(2). *)
Example scenario_move_across :
  RoutineItem_save (mkItem (Some 2) (item 2 "B" 1)) sample
  = Committed (<[1 := item 1 "A" 1]> (<[2 := item 2 "B" 1]> (<[3 := item 1 "C" 2]>
               (<[4 := item 1 "D" 3]> (<[5 := item 2 "X" 2]> ∅)))),
               mkItem (Some 2) (item 2 "B" 1)).
Proof. vm_compute. reflexivity. Qed.

(** Setting B's priority to absent inside routine 1 stores it at 5 and
    leaves no item at 4. *)
Example scenario_absent_on_edit :
  RoutineItem_save (mkItem (Some 2) (mkColumns 1 "B" None true None)) sample
  = Committed (<[1 := item 1 "A" 1]> (<[2 := item 1 "B" 5]> (<[3 := item 1 "C" 2]>
               (<[4 := item 1 "D" 3]> (<[5 := item 2 "X" 1]> ∅)))),
               mkItem (Some 2) (item 1 "B" 5)).
Proof. vm_compute. reflexivity. Qed.

(** A stored row without a priority: an update that gives it one raises on
    the comparison, a move to another routine on the lookup. *)
Example scenario_stored_priority_missing :
  let t : Table := <[1 := mkColumns 1 "A" None true None]> ∅ in
  RoutineItem_save (mkItem (Some 1) (item 1 "A" 1)) t = Raised NoneComparison ∧
  RoutineItem_save (mkItem (Some 1) (item 2 "A" 1)) t = Raised NoneQueryValue ∧
  RoutineItem_delete (mkItem (Some 1) (mkColumns 1 "A" None true None)) t
    = Raised NoneQueryValue ∧
  RoutineItem_delete (mkItem None (item 1 "A" 1)) t = Raised DeleteUnsaved.
Proof. repeat split; vm_compute; reflexivity. Qed.

End scenarios.

(** ** Normalisation of names and titles *)

Section normalisation.

Lemma ascii_case_facts c :
  (is_upper c || is_lower c = true →
     is_upper (to_upper c) || is_lower (to_upper c) = true ∧
     is_upper (to_lower c) || is_lower (to_lower c) = true ∧
     to_upper (to_upper c) = to_upper c ∧
     to_lower (to_lower c) = to_lower c ∧
     to_upper (to_lower c) = to_upper c ∧
     is_space c = false ∧
     is_space (to_upper c) = false ∧ is_space (to_lower c) = false) ∧
  (is_upper c || is_lower c = false → to_lower c = c ∧ to_upper c = c) ∧
  is_upper (to_lower c) || is_lower (to_lower c) = is_upper c || is_lower c ∧
  is_space (to_lower c) = is_space c.
Proof.
  destruct c as [[|] [|] [|] [|] [|] [|] [|] [|]]; vm_compute;
    (split; [intros H; first [discriminate H | repeat split]|]);
    (split; [intros H; first [discriminate H | repeat split]|]);
    split; reflexivity.
Qed.

Lemma title_from_idempotent b s : title_from b (title_from b s) = title_from b s.
Proof.
  revert b. induction s as [|c s IH]; intros b; simpl; [done|].
  destruct (is_upper c || is_lower c) eqn:Hc.
  - destruct (proj1 (ascii_case_facts c) Hc) as (Hu & Hl & Huu & Hll & _).
    destruct b; simpl.
    + rewrite Hl, Hll. by rewrite IH.
    + rewrite Hu, Huu. by rewrite IH.
  - simpl. rewrite Hc. by rewrite IH.
Qed.

Lemma title_from_lower b s : title_from b (str_lower s) = title_from b s.
Proof.
  revert b. induction s as [|c s IH]; intros b; simpl; [done|].
  destruct (ascii_case_facts c) as (Hcased & Huncased & -> & _).
  destruct (is_upper c || is_lower c) eqn:Hc.
  - destruct (Hcased eq_refl) as (_ & _ & _ & Hll & Hul & _).
    rewrite Hll, Hul, IH. done.
  - destruct (Huncased eq_refl) as [-> _]. by rewrite IH.
Qed.

Lemma lstrip_idempotent s : lstrip (lstrip s) = lstrip s.
Proof.
  induction s as [|c s IH]; simpl; [done|].
  destruct (is_space c) eqn:Hc; [done|]. simpl. by rewrite Hc.
Qed.

Lemma lstrip_head s c : str_head (lstrip s) = Some c → is_space c = false.
Proof.
  induction s as [|c' s IH]; simpl; [done|].
  destruct (is_space c') eqn:Hc; [done|]. simpl. by intros [= <-].
Qed.

Lemma rstrip_empty_or_last s :
  rstrip s = EmptyString ∨ ∃ c, str_last (rstrip s) = Some c ∧ is_space c = false.
Proof.
  induction s as [|c s IH]; simpl; [by left|].
  destruct (rstrip s) as [|c' r] eqn:Hr.
  - destruct (is_space c) eqn:Hc; [by left|]. right. by exists c.
  - right. destruct IH as [|IH]; [done|]. simpl in *. done.
Qed.

Lemma rstrip_last s c : str_last (rstrip s) = Some c → is_space c = false.
Proof.
  intros H. destruct (rstrip_empty_or_last s) as [He|(c' & Hc' & Hs)].
  - by rewrite He in H.
  - congruence.
Qed.

Lemma rstrip_fixed s :
  (∀ c, str_last s = Some c → is_space c = false) → rstrip s = s.
Proof.
  induction s as [|c s IH]; simpl; [done|]. intros Hlast.
  destruct s as [|c' s'].
  - simpl. by rewrite (Hlast c eq_refl).
  - rewrite IH by done. done.
Qed.

Lemma rstrip_idempotent s : rstrip (rstrip s) = rstrip s.
Proof. apply rstrip_fixed. apply rstrip_last. Qed.

Lemma rstrip_head s c :
  str_head s = Some c → is_space c = false → str_head (rstrip s) = Some c.
Proof.
  destruct s as [|c' s]; simpl; [done|]. intros [= ->] Hc.
  destruct (rstrip s); [by rewrite Hc|done].
Qed.

Lemma lstrip_fixed s :
  (∀ c, str_head s = Some c → is_space c = false) → lstrip s = s.
Proof.
  destruct s as [|c s]; simpl; [done|]. intros H. by rewrite (H c eq_refl).
Qed.

Lemma str_strip_head s c : str_head (str_strip s) = Some c → is_space c = false.
Proof.
  unfold str_strip. intros H.
  destruct (lstrip s) as [|c' r] eqn:Hl; [done|].
  assert (Hc' : is_space c' = false) by (apply (lstrip_head s); by rewrite Hl).
  rewrite (rstrip_head _ c') in H by done. congruence.
Qed.

Lemma str_strip_last s c : str_last (str_strip s) = Some c → is_space c = false.
Proof. apply rstrip_last. Qed.

Lemma str_strip_fixed s :
  (∀ c, str_head s = Some c → is_space c = false) →
  (∀ c, str_last s = Some c → is_space c = false) →
  str_strip s = s.
Proof.
  intros Hh Hl. unfold str_strip. rewrite lstrip_fixed by done.
  by apply rstrip_fixed.
Qed.

Lemma str_strip_idempotent s : str_strip (str_strip s) = str_strip s.
Proof. apply str_strip_fixed; [apply str_strip_head|apply str_strip_last]. Qed.

Lemma title_from_head b s c :
  str_head (title_from b s) = Some c →
  ∃ c0, str_head s = Some c0 ∧ is_space c = is_space c0.
Proof.
  destruct s as [|c0 s]; simpl; [done|].
  destruct (ascii_case_facts c0) as (Hcased & _).
  destruct (is_upper c0 || is_lower c0) eqn:Hc; simpl; intros [= <-];
    exists c0; (split; [done|]); [|done].
  destruct (Hcased eq_refl) as (_ & _ & _ & _ & _ & Hs & Hsu & Hsl).
  destruct b; congruence.
Qed.

Lemma title_from_last b s c :
  str_last (title_from b s) = Some c →
  ∃ c0, str_last s = Some c0 ∧ is_space c = is_space c0.
Proof.
  revert b. induction s as [|c0 s IH]; intros b; simpl; [done|].
  destruct (ascii_case_facts c0) as (Hcased & _).
  destruct s as [|c1 s'].
  - destruct (is_upper c0 || is_lower c0) eqn:Hc; simpl; intros [= <-];
      exists c0; (split; [done|]); [|done].
    destruct (Hcased eq_refl) as (_ & _ & _ & _ & _ & Hs & Hsu & Hsl).
    destruct b; congruence.
  - destruct (is_upper c0 || is_lower c0) eqn:Hc.
    + specialize (IH true). simpl in *.
      destruct (is_upper c1 || is_lower c1); apply IH.
    + specialize (IH false). simpl in *.
      destruct (is_upper c1 || is_lower c1); apply IH.
Qed.

Lemma str_strip_title_strip s :
  str_strip (str_title (str_strip s)) = str_title (str_strip s).
Proof.
  apply str_strip_fixed.
  - intros c (c0 & Hc0 & ->)%title_from_head. by apply (str_strip_head s).
  - intros c (c0 & Hc0 & ->)%title_from_last. by apply (str_strip_last s).
Qed.

(** The normal form [name.strip().title()] is a fixed point of itself. *)
Lemma normal_form_idempotent s :
  str_title (str_strip (str_title (str_strip s))) = str_title (str_strip s).
Proof. rewrite str_strip_title_strip. apply title_from_idempotent. Qed.

Lemma lstrip_lower s : lstrip (str_lower s) = str_lower (lstrip s).
Proof.
  induction s as [|c s IH]; simpl; [done|].
  destruct (ascii_case_facts c) as (_ & _ & _ & ->).
  by destruct (is_space c).
Qed.

Lemma rstrip_lower s : rstrip (str_lower s) = str_lower (rstrip s).
Proof.
  induction s as [|c s IH]; simpl; [done|]. rewrite IH.
  destruct (ascii_case_facts c) as (_ & _ & _ & ->).
  destruct (rstrip s); simpl; [|done]. by destruct (is_space c).
Qed.

Lemma str_strip_lower s : str_strip (str_lower s) = str_lower (str_strip s).
Proof. unfold str_strip. by rewrite lstrip_lower, rstrip_lower. Qed.

Lemma lstrip_space c s : is_space c = true → lstrip (String c s) = lstrip s.
Proof. intros H. simpl. by rewrite H. Qed.

Lemma normalize_title_fixed self :
  str_title (str_strip (title (cols self))) = title (cols self) →
  normalize_title self = self.
Proof.
  intros H. unfold normalize_title. case_bool_decide; [done|].
  rewrite H. by destruct self as [? []].
Qed.

Lemma normalize_title_normal self :
  str_title (str_strip (title (cols (normalize_title self))))
  = title (cols (normalize_title self)).
Proof.
  unfold normalize_title. case_bool_decide as H.
  - by rewrite H.
  - simpl. apply normal_form_idempotent.
Qed.

Lemma normalize_title_idempotent self :
  normalize_title (normalize_title self) = normalize_title self.
Proof. apply normalize_title_fixed, normalize_title_normal. Qed.

End normalisation.

(** ** The shape of every committed write *)

Section committed.
Implicit Types (t : Table) (c : Columns) (self : RoutineItem).

Lemma filter_update_ext sel sel' d t :
  (∀ c, sel c = sel' c) → filter_update sel d t = filter_update sel' d t.
Proof.
  intros H. unfold filter_update. apply map_fmap_ext. intros k c _. by rewrite H.
Qed.

Lemma filter_update_none sel d t :
  (∀ c, sel c = false) → filter_update sel d t = t.
Proof.
  intros H. unfold filter_update. rewrite <- (map_fmap_id t) at 2.
  apply map_fmap_ext. intros k c _. by rewrite H.
Qed.

Lemma dom_filter_update sel d t : dom (filter_update sel d t) = dom t.
Proof. unfold filter_update. apply dom_fmap_L. Qed.

(** The largest priority of the routine is at least the stored priority of
    any of its rows: the append value lies above it. *)
Lemma or_zero_max_above R t k c p :
  t !! k = Some c → routine c = R → priority c = Some p →
  p ≤ or_zero (aggregate_max (routine_is R) t).
Proof.
  intros Hk HR Hp. rewrite or_zero_default.
  destruct (aggregate_max (routine_is R) t) as [m|] eqn:Hm; simpl.
  - apply aggregate_max_Some in Hm as [_ Hle].
    apply (Hle k c p Hk); [by apply routine_is_true|done].
  - pose proof (aggregate_max_None _ _ Hm k c Hk
                  (proj2 (routine_is_true R c) HR)). congruence.
Qed.

(** Every committed save is a row write at the instance's key on top of at
    most one decrement pass (rows above the stored priority, in the stored
    routine) and at most one increment pass. *)
Lemma save_committed_form self t t' self' :
  RoutineItem_save self t = Committed (t', self') →
  ∃ k f1 R1 f2 R2,
    pk self' = Some k ∧
    (∀ k0, pk self = Some k0 → k0 = k) ∧
    (pk self = None → t !! k = None) ∧
    cols self' = set_priority (priority (cols self')) (cols (normalize_title self)) ∧
    t' = <[k := cols self']>
           (filter_update (λ c, routine_is R2 c && f2 c) 1
              (filter_update (λ c, routine_is R1 c && f1 c) (-1) t)) ∧
    ((∀ c, f1 c = false) ∨
     ∃ old A, t !! k = Some old ∧ priority old = Some A ∧
              ∀ c, f1 c = true → priority_gt A c = true) ∧
    (priority (cols self') = priority (cols self) ∨
     priority (cols self) = None ∧
     ∃ tm, (tm = t ∨ tm = filter_update (λ c, routine_is R1 c && f1 c) (-1) t) ∧
           priority (cols self')
           = Some (or_zero (aggregate_max (routine_is (routine (cols self))) tm) + 1)).
Proof.
  intros Hsave. revert Hsave. unfold RoutineItem_save. cbv zeta.
  rewrite pk_normalize_title, priority_normalize_title, routine_normalize_title.
  pose proof (priority_normalize_title self) as Hpn.
  assert (Hno : ∀ R d t0, filter_update (λ c, routine_is R c && false) d t0 = t0).
  { intros R d t0. apply filter_update_none. intros c. apply andb_false_r. }
  destruct (pk self) as [k0|] eqn:Hpk.
  - destruct (t !! k0) as [old|] eqn:Hk0.
    + case_bool_decide as HR.
      * destruct (priority old) as [A|] eqn:HA; simpl; [|done].
        destruct (priority (cols self)) as [P|] eqn:HP; intros [= Heq];
          unfold Model_save in Heq; simpl in Heq;
          rewrite ?pk_normalize_title, ?routine_normalize_title, Hpk in Heq;
          injection Heq as <- <-.
        -- exists k0, (priority_gt A), (routine old),
             (priority_gte P), (routine (cols self)).
           split_and!.
           ++ by rewrite pk_normalize_title.
           ++ by intros k1 [= ->].
           ++ done.
           ++ by rewrite set_priority_id.
           ++ done.
           ++ right. by exists old, A.
           ++ left. congruence.
        -- exists k0, (priority_gt A), (routine old), (λ _, false), 0.
           split_and!.
           ++ simpl. by rewrite pk_normalize_title.
           ++ by intros k1 [= ->].
           ++ done.
           ++ done.
           ++ by rewrite Hno.
           ++ right. by exists old, A.
           ++ right. split; [done|]. eexists. split; [by right|done].
      * case_bool_decide as HPne.
        -- destruct (priority old) as [A|] eqn:HA; [|done].
           destruct (priority (cols self)) as [P|] eqn:HP.
           ++ case_bool_decide as Hlt; intros [= Heq];
                unfold Model_save in Heq; simpl in Heq;
                rewrite ?pk_normalize_title, ?routine_normalize_title, Hpk in Heq;
                injection Heq as <- <-.
              ** exists k0, (λ _, false), 0,
                   (λ c, priority_gte P c && priority_lt A c), (routine (cols self)).
                 split_and!.
                 --- simpl. by rewrite pk_normalize_title.
                 --- by intros k1 [= ->].
                 --- done.
                 --- done.
                 --- simpl. rewrite Hno. f_equal. apply filter_update_ext.
                     intros c. by rewrite andb_assoc.
                 --- by left.
                 --- by left.
              ** exists k0, (λ c, priority_gt A c && priority_lte P c),
                   (routine (cols self)), (λ _, false), 0.
                 split_and!.
                 --- simpl. by rewrite pk_normalize_title.
                 --- by intros k1 [= ->].
                 --- done.
                 --- done.
                 --- simpl. rewrite Hno. f_equal. apply filter_update_ext.
                     intros c. by rewrite andb_assoc.
                 --- right. exists old, A. split_and!; [done..|].
                     by intros c [? _]%andb_prop.
                 --- by left.
           ++ assert (HAle : ¬ or_zero (aggregate_max
                                 (routine_is (routine (cols self))) t) + 1 < A).
              { assert (routine old = routine (cols self)) as HRo.
                { by destruct (decide (routine old = routine (cols self))). }
                pose proof (or_zero_max_above _ t k0 old A Hk0 HRo HA). lia. }
              rewrite bool_decide_eq_false_2 by done. intros [= Heq].
              unfold Model_save in Heq; simpl in Heq;
                rewrite ?pk_normalize_title, ?routine_normalize_title, Hpk in Heq;
                injection Heq as <- <-.
              exists k0,
                (λ c, priority_gt A c &&
                      priority_lte (or_zero (aggregate_max
                         (routine_is (routine (cols self))) t) + 1) c),
                (routine (cols self)), (λ _, false), 0.
              split_and!.
              ** simpl. by rewrite pk_normalize_title.
              ** by intros k1 [= ->].
              ** done.
              ** done.
              ** simpl. rewrite Hno. f_equal. apply filter_update_ext.
                 intros c. by rewrite andb_assoc.
              ** right. exists old, A. split_and!; [done..|].
                 by intros c [? _]%andb_prop.
              ** right. split; [done|]. eexists. split; [by left|done].
        -- intros [= Heq]. unfold Model_save in Heq.
           rewrite pk_normalize_title, Hpk in Heq. injection Heq as <- <-.
           exists k0, (λ _, false), 0, (λ _, false), 0.
           split_and!.
           ++ by rewrite pk_normalize_title.
           ++ by intros k1 [= ->].
           ++ done.
           ++ by rewrite set_priority_id.
           ++ by rewrite !Hno.
           ++ by left.
           ++ by left.
    + intros [= Heq]. unfold Model_save in Heq.
      rewrite pk_normalize_title, Hpk in Heq. injection Heq as <- <-.
      exists k0, (λ _, false), 0, (λ _, false), 0.
      split_and!.
      * by rewrite pk_normalize_title.
      * by intros k1 [= ->].
      * done.
      * by rewrite set_priority_id.
      * by rewrite !Hno.
      * by left.
      * by left.
  - destruct (priority (cols self)) as [P|] eqn:HP; intros [= Heq];
      unfold Model_save in Heq; simpl in Heq;
      rewrite ?pk_normalize_title, ?routine_normalize_title, Hpk in Heq;
      injection Heq as <- <-.
    + eexists _, (λ _, false), 0, (priority_gte P), (routine (cols self)).
      split_and!.
      * done.
      * done.
      * intros _. apply next_pk_fresh_before.
      * simpl. by rewrite set_priority_id.
      * simpl. by rewrite Hno.
      * by left.
      * left. simpl. congruence.
    + eexists _, (λ _, false), 0, (λ _, false), 0.
      split_and!.
      * done.
      * done.
      * intros _. apply next_pk_fresh.
      * done.
      * simpl. by rewrite !Hno.
      * by left.
      * right. split; [done|]. eexists. split; [by left|done].
Qed.

Lemma delete_committed_form self t t' :
  RoutineItem_delete self t = Committed t' →
  ∃ k A, pk self = Some k ∧ priority (cols self) = Some A ∧
         t' = filter_update
                (λ c, routine_is (routine (cols self)) c && priority_gt A c) (-1)
                (delete k t).
Proof.
  unfold RoutineItem_delete, Model_delete. cbv zeta.
  destruct (pk self) as [k|]; simpl; [|done].
  destruct (priority (cols self)) as [A|]; simpl; [|done].
  intros [= <-]. by exists k, A.
Qed.

End committed.

(** ** What a save leaves in the table *)

Section save_results.
Implicit Types (t : Table) (c : Columns) (self : RoutineItem).

(** X1. After a committed save the instance has a key, the row under that
    key is the instance's columns, and the keys of the table are the old
    ones and that key: an update keeps its key, a create gets a key that
    was not in use. The routine is the caller's, and so is an explicit
    priority. *)
Theorem save_stores_instance self t t' self' :
  RoutineItem_save self t = Committed (t', self') →
  ∃ k, pk self' = Some k ∧
       t' !! k = Some (cols self') ∧
       dom t' = {[k]} ∪ dom t ∧
       (∀ k0, pk self = Some k0 → k0 = k) ∧
       (pk self = None → k ∉ dom t) ∧
       routine (cols self') = routine (cols self) ∧
       description (cols self') = description (cols self) ∧
       is_active (cols self') = is_active (cols self) ∧
       (∀ P, priority (cols self) = Some P → priority (cols self') = Some P).
Proof.
  intros (k & f1 & R1 & f2 & R2 & Hpk & Hupd & Hnew & Hcols & -> & _ & Hprio)
    %save_committed_form.
  exists k. split_and!; [done|apply lookup_insert_eq| |done| |..].
  - by rewrite dom_insert_L, !dom_filter_update.
  - intros Hnone. by apply not_elem_of_dom, Hnew.
  - rewrite Hcols. simpl. apply routine_normalize_title.
  - rewrite Hcols. simpl. apply description_normalize_title.
  - rewrite Hcols. simpl. apply is_active_normalize_title.
  - intros P HP. destruct Hprio as [->|[Hn _]]; congruence.
Qed.

Lemma save_stores_instance_witness :
  ∃ t' self' k,
    RoutineItem_save (mkItem None (item 1 "e" 2)) sample = Committed (t', self') ∧
    pk self' = Some k ∧ t' !! k = Some (cols self') ∧ k ∉ dom sample.
Proof.
  destruct (RoutineItem_save (mkItem None (item 1 "e" 2)) sample)
    as [[t' self']|e] eqn:Hs; [|vm_compute in Hs; discriminate Hs].
  destruct (save_stores_instance _ _ _ _ Hs)
    as (k & Hpk & Hk & _ & _ & Hfresh & _).
  exists t', self', k. split_and!; [reflexivity|exact Hpk|exact Hk|].
  apply Hfresh. reflexivity.
Defined.




End save_results.

(** ** What a write does to the other rows *)

Section other_rows.
Implicit Types (t : Table) (c : Columns) (self : RoutineItem).

Lemma nudged_shift_down c : nudged c (shift (-1) c).
Proof.
  destruct (priority c) as [p|] eqn:Hp.
  - right. exists p. split; [done|]. right. by rewrite (shift_Some _ _ p).
  - left. by apply shift_None.
Qed.

Lemma nudged_shift_up c : nudged c (shift 1 c).
Proof.
  destruct (priority c) as [p|] eqn:Hp.
  - right. exists p. split; [done|]. left. by rewrite (shift_Some _ _ p).
  - left. by apply shift_None.
Qed.

(** X4. A committed save or delete leaves every row other than the
    instance's own in place, with its routine, title, description and
    active flag, and with its priority either unchanged or moved by exactly
    one; a delete never increments. *)
Theorem writes_nudge_other_rows self t :
  (∀ t' self', RoutineItem_save self t = Committed (t', self') →
     ∀ k c, t !! k = Some c → pk self ≠ Some k →
       ∃ c', t' !! k = Some c' ∧ nudged c c') ∧
  (∀ t', RoutineItem_delete self t = Committed t' →
     ∀ k c, t !! k = Some c → pk self ≠ Some k →
       ∃ c', t' !! k = Some c' ∧
             (c' = c ∨ ∃ p, priority c = Some p ∧
                            c' = set_priority (Some (p - 1)) c)).
Proof.
  split.
  - intros t' self'
      (k0 & f1 & R1 & f2 & R2 & Hpk & Hupd & Hnew & _ & -> & _)%save_committed_form
      k c Hk Hne.
    assert (k ≠ k0).
    { intros ->. destruct (pk self) as [k1|] eqn:Hpks.
      - apply Hne. f_equal. by apply Hupd.
      - by rewrite Hnew in Hk. }
    eexists. split.
    { rewrite lookup_insert_ne by done.
      erewrite lookup_filter_update_Some; [done|].
      by apply lookup_filter_update_Some. }
    destruct (routine_is R1 c && f1 c).
    + destruct (routine_is R2 (shift (-1) c) && f2 (shift (-1) c)).
      * left. apply (shift_shift' c 1).
      * apply nudged_shift_down.
    + destruct (routine_is R2 c && f2 c); [apply nudged_shift_up|by left].
  - intros t' (k0 & A & Hpk & HA & ->)%delete_committed_form k c Hk Hne.
    assert (k ≠ k0) by congruence.
    eexists. split.
    { apply lookup_filter_update_Some. by rewrite lookup_delete_ne. }
    destruct (routine_is (routine (cols self)) c && priority_gt A c); [|by left].
    destruct (priority c) as [p|] eqn:Hp.
    + right. exists p. split; [done|]. by rewrite (shift_Some _ _ p).
    + left. by apply shift_None.
Qed.

Lemma writes_nudge_other_rows_witness :
  ∃ t' self' c',
    RoutineItem_save (mkItem (Some 3) (item 1 "C" 1)) sample = Committed (t', self') ∧
    t' !! 1 = Some c' ∧ nudged (item 1 "A" 1) c'.
Proof.
  destruct (RoutineItem_save (mkItem (Some 3) (item 1 "C" 1)) sample)
    as [[t' self']|e] eqn:Hs; [|vm_compute in Hs; discriminate Hs].
  destruct (proj1 (writes_nudge_other_rows _ _) t' self' Hs 1 (item 1 "A" 1)
              eq_refl ltac:(discriminate)) as (c' & Hc' & Hn).
  exists t', self', c'. split_and!; [reflexivity|exact Hc'|exact Hn].
Defined.

Lemma priorities_from_up b sel t :
  priorities_from b t → priorities_from b (filter_update sel 1 t).
Proof.
  intros Hb k c' p Hk Hp. rewrite lookup_filter_update in Hk.
  destruct (t !! k) as [c|] eqn:Hc; [|done]. simpl in Hk. simplify_eq.
  destruct (sel c); [|by eapply Hb].
  destruct (priority c) as [q|] eqn:Hq.
  - rewrite (shift_Some _ _ q) in Hp by done. simpl in Hp. simplify_eq.
    specialize (Hb k c q Hc Hq). lia.
  - rewrite shift_None in Hp by done. congruence.
Qed.

Lemma priorities_from_down b sel A t :
  priorities_from b t → b ≤ A →
  (∀ c, sel c = true → priority_gt A c = true) →
  priorities_from b (filter_update sel (-1) t).
Proof.
  intros Hb HA Hsel k c' p Hk Hp. rewrite lookup_filter_update in Hk.
  destruct (t !! k) as [c|] eqn:Hc; [|done]. simpl in Hk. simplify_eq.
  destruct (sel c) eqn:Hs; [|by eapply Hb].
  apply Hsel in Hs. unfold priority_gt in Hs.
  destruct (priority c) as [q|] eqn:Hq; [|done].
  apply bool_decide_eq_true in Hs.
  rewrite (shift_Some _ _ q) in Hp by done. simpl in Hp. simplify_eq. lia.
Qed.

Lemma priorities_from_insert b t k c :
  priorities_from b t → (∀ p, priority c = Some p → b ≤ p) →
  priorities_from b (<[k := c]> t).
Proof.
  intros Hb Hc k' c' p [[-> <-]|[_ Hk]]%lookup_insert_Some Hp; [by apply Hc|].
  by eapply Hb.
Qed.

Lemma priorities_from_append b R t :
  priorities_from b t → b ≤ 1 →
  b ≤ or_zero (aggregate_max (routine_is R) t) + 1.
Proof.
  intros Hb Hb1. rewrite or_zero_default.
  destruct (aggregate_max (routine_is R) t) as [m|] eqn:Hm; simpl; [|done].
  apply aggregate_max_Some in Hm as [(k & c & Hk & _ & Hp) _].
  specialize (Hb k c m Hk Hp). lia.
Qed.

(** X5. Priorities never fall below a floor of [0] or [1]: when no stored
    priority is below [b <= 1] and the instance's priority is absent or at
    least [b], the same holds for the table a save or a delete commits. *)
Theorem priorities_stay_above self t b :
  b ≤ 1 →
  priorities_from b t →
  (∀ p, priority (cols self) = Some p → b ≤ p) →
  (∀ t' self', RoutineItem_save self t = Committed (t', self') →
               priorities_from b t') ∧
  (∀ t', RoutineItem_delete self t = Committed t' → priorities_from b t').
Proof.
  intros Hb1 Hb Hself. split.
  - intros t' self'
      (k0 & f1 & R1 & f2 & R2 & _ & _ & _ & _ & -> & Hdown & Hprio)%save_committed_form.
    assert (Htm : priorities_from b
                    (filter_update (λ c, routine_is R1 c && f1 c) (-1) t)).
    { destruct Hdown as [Hnone|(old & A & Hold & HA & Hgt)].
      - rewrite filter_update_none; [done|]. intros c. rewrite Hnone.
        apply andb_false_r.
      - apply (priorities_from_down b _ A); [done|by eapply Hb|].
        intros c [_ Hf]%andb_prop. by apply Hgt. }
    apply priorities_from_insert; [by apply priorities_from_up|].
    intros p Hp. destruct Hprio as [He|(_ & tm & Htm' & He)].
    + apply Hself. congruence.
    + rewrite He in Hp. simplify_eq.
      destruct Htm' as [->| ->]; by apply priorities_from_append.
  - intros t' (k0 & A & Hpk & HA & ->)%delete_committed_form.
    apply (priorities_from_down b _ A).
    + intros k c p [_ Hk]%lookup_delete_Some Hp. by apply (Hb k c p).
    + by apply Hself.
    + by intros c [_ Hf]%andb_prop.
Qed.

Lemma priorities_stay_above_witness :
  priorities_from 1 sample ∧
  ∃ t', RoutineItem_delete (mkItem (Some 2) (item 1 "B" 2)) sample = Committed t' ∧
        priorities_from 1 t'.
Proof.
  assert (Hs : priorities_from 1 sample).
  { intros k c p Hk Hp. revert Hk. unfold sample.
    rewrite !lookup_insert_Some, lookup_empty.
    intros [[_ <-]|[_ [[_ <-]|[_ [[_ <-]|[_ [[_ <-]|[_ [[_ <-]|[_ Hk]]]]]]]]]];
      [..|discriminate Hk]; injection Hp as <-; lia. }
  split; [exact Hs|].
  destruct (RoutineItem_delete (mkItem (Some 2) (item 1 "B" 2)) sample)
    as [t'|e] eqn:Hd; [|vm_compute in Hd; discriminate Hd].
  exists t'. split; [reflexivity|].
  refine (proj2 (priorities_stay_above (mkItem (Some 2) (item 1 "B" 2)) sample 1
                   _ Hs _) t' Hd).
  - lia.
  - intros p [= <-]. lia.
Defined.

End other_rows.

(** ** Writes that undo each other, and one that does not *)

Section compositions.
Implicit Types (t : Table) (c : Columns) (self : RoutineItem).

Lemma undo_insert_shift R P c :
  let c1 := if routine_is R c && priority_gte P c then shift 1 c else c in
  (if routine_is R c1 && priority_gt P c1 then shift (-1) c1 else c1) = c.
Proof.
  cbv zeta. destruct (routine_is R c && priority_gte P c) eqn:Hs.
  - apply andb_prop in Hs as [HR Hge]. unfold priority_gte in Hge.
    destruct (priority c) as [p|] eqn:Hp; [|done].
    apply bool_decide_eq_true in Hge. apply routine_is_true in HR.
    rewrite (sel_gt_true R P _ (p + 1)); [apply (shift_shift c 1)|done| |lia].
    by rewrite (shift_Some _ _ p).
  - destruct (routine_is R c) eqn:HR; [|done]. simpl in *.
    unfold priority_gte in Hs. unfold priority_gt.
    destruct (priority c) as [p|]; [|done].
    apply bool_decide_eq_false in Hs. by rewrite bool_decide_eq_false_2 by lia.
Qed.






End compositions.

Section across_and_back.
Implicit Types (t : Table) (c : Columns) (self : RoutineItem).

Lemma undo_gap_shift R A c :
  (routine c = R → priority c ≠ Some A) →
  let c1 := if routine_is R c && priority_gt A c then shift (-1) c else c in
  (if routine_is R c1 && priority_gte A c1 then shift 1 c1 else c1) = c.
Proof.
  intros HnA. cbv zeta. destruct (routine_is R c && priority_gt A c) eqn:Hs.
  - apply andb_prop in Hs as [HR Hgt]. unfold priority_gt in Hgt.
    destruct (priority c) as [p|] eqn:Hp; [|done].
    apply bool_decide_eq_true in Hgt. apply routine_is_true in HR.
    rewrite (sel_gte_true R A _ (p - 1)); [apply (shift_shift' c 1)|done| |lia].
    by rewrite (shift_Some _ _ p).
  - destruct (routine_is R c) eqn:HR; [|done]. simpl in *.
    apply routine_is_true in HR. specialize (HnA HR).
    unfold priority_gt in Hs. unfold priority_gte.
    destruct (priority c) as [p|]; [|done].
    apply bool_decide_eq_false in Hs.
    assert (p ≠ A) by congruence. by rewrite bool_decide_eq_false_2 by lia.
Qed.

Lemma routine_if_shift (b : bool) d c : routine (if b then shift d c else c) = routine c.
Proof. by destruct b. Qed.

Lemma across_and_back_row R1 R2 A P c :
  R1 ≠ R2 → (routine c = R1 → priority c ≠ Some A) →
  let c1 := if routine_is R1 c && priority_gt A c then shift (-1) c else c in
  let c2 := if routine_is R2 c1 && priority_gte P c1 then shift 1 c1 else c1 in
  let c3 := if routine_is R2 c2 && priority_gt P c2 then shift (-1) c2 else c2 in
  (if routine_is R1 c3 && priority_gte A c3 then shift 1 c3 else c3) = c.
Proof.
  intros Hne HnA. cbv zeta. destruct (decide (routine c = R1)) as [H1|H1].
  - rewrite (sel_other_routine R2 (priority_gte P))
      by (rewrite routine_if_shift; congruence).
    rewrite (sel_other_routine R2 (priority_gt P))
      by (rewrite routine_if_shift; congruence).
    apply undo_gap_shift. exact HnA.
  - rewrite (sel_other_routine R1 (priority_gt A) c) by done.
    rewrite (sel_other_routine R1 (priority_gte A))
      by (rewrite !routine_if_shift; congruence).
    apply undo_insert_shift.
Qed.

Lemma across_and_back_row_absent R1 R2 A Q c :
  R1 ≠ R2 → (routine c = R1 → priority c ≠ Some A) →
  (routine c = R2 → priority_gt Q c = false) →
  let c1 := if routine_is R1 c && priority_gt A c then shift (-1) c else c in
  let c3 := if routine_is R2 c1 && priority_gt Q c1 then shift (-1) c1 else c1 in
  (if routine_is R1 c3 && priority_gte A c3 then shift 1 c3 else c3) = c.
Proof.
  intros Hne HnA HQ. cbv zeta. destruct (decide (routine c = R1)) as [H1|H1].
  - rewrite (sel_other_routine R2 (priority_gt Q))
      by (rewrite routine_if_shift; congruence).
    apply undo_gap_shift. exact HnA.
  - rewrite (sel_other_routine R1 (priority_gt A) c) by done.
    assert (Hc3 : routine_is R2 c && priority_gt Q c = false).
    { destruct (routine_is R2 c) eqn:HR; [|done]. simpl.
      by apply HQ, routine_is_true. }
    rewrite Hc3. by rewrite (sel_other_routine R1 (priority_gte A) c).
Qed.

(** X8. Moving an item of a densely ordered routine to another routine,
    with or without a priority, and then moving it back to its old
    priority restores every other row of the table, and the item is at its
    old priority in its old routine again. *)
Theorem move_across_and_back self t k old R1 R2 A :
  dense R1 t →
  pk self = Some k → t !! k = Some old →
  routine old = R1 → priority old = Some A →
  routine (cols self) = R2 → R1 ≠ R2 →
  ∃ t1 self1,
    RoutineItem_save self t = Committed (t1, self1) ∧
    ∀ self2,
      pk self2 = Some k → routine (cols self2) = R1 →
      priority (cols self2) = Some A →
      ∃ t2 self2',
        RoutineItem_save self2 t1 = Committed (t2, self2') ∧
        (∀ k', k' ≠ k → t2 !! k' = t !! k') ∧
        (∃ c, t2 !! k = Some c ∧ routine c = R1 ∧ priority c = Some A).
Proof.
  intros Hd Hpk Hk HRo HA HRs Hne.
  assert (HnA : ∀ k' c, k' ≠ k → t !! k' = Some c →
                        routine c = R1 → priority c ≠ Some A).
  { intros k' c Hk'ne Hk' HRc HpA. apply Hk'ne.
    eapply (dense_unique _ _ _ Hd k' c Hk' k old Hk); congruence. }
  rewrite (save_move_across self t k old A Hpk Hk) by congruence.
  rewrite HRo, HRs. cbv zeta.
  destruct (priority (cols self)) as [P|] eqn:HP;
    eexists _, _; (split; [reflexivity|]); intros self2 Hpk2 HR2 HP2.
  - erewrite (save_move_across self2 _ k (cols (normalize_title self)) P Hpk2);
      [|apply lookup_insert_eq|rewrite routine_normalize_title; congruence
       |by rewrite priority_normalize_title].
    rewrite HP2, HR2, routine_normalize_title, HRs.
    eexists _, _. split; [reflexivity|]. split.
    + intros k' Hk'ne. rewrite lookup_insert_ne by done.
      rewrite !lookup_filter_update, lookup_insert_ne by done.
      rewrite !lookup_filter_update.
      destruct (t !! k') as [c|] eqn:Hk'; [|done]. simpl. f_equal.
      apply across_and_back_row; [done|]. by apply (HnA k').
    + eexists. split; [apply lookup_insert_eq|].
      by rewrite routine_normalize_title, priority_normalize_title.
  - set (tA := filter_update (λ c, routine_is R1 c && priority_gt A c) (-1) t).
    set (Q := or_zero (aggregate_max (routine_is R2) tA) + 1).
    erewrite (save_move_across self2 _ k
                (set_priority (Some Q) (cols (normalize_title self))) Q Hpk2);
      [|apply lookup_insert_eq|simpl; rewrite routine_normalize_title; congruence
       |done].
    rewrite HP2, HR2. simpl. rewrite routine_normalize_title, HRs.
    eexists _, _. split; [reflexivity|]. split.
    + intros k' Hk'ne. rewrite lookup_insert_ne by done.
      rewrite !lookup_filter_update, lookup_insert_ne by done.
      unfold tA. rewrite lookup_filter_update.
      destruct (t !! k') as [c|] eqn:Hk'; [|done]. simpl. f_equal.
      apply across_and_back_row_absent; [done|by apply (HnA k')|].
      intros HRc. unfold priority_gt.
      destruct (priority c) as [p|] eqn:Hp; [|done].
      assert (HtA : tA !! k' = Some c).
      { unfold tA. rewrite (lookup_filter_update_Some _ _ _ _ c) by done.
        by rewrite sel_other_routine by congruence. }
      pose proof (or_zero_max_above R2 tA k' c p HtA HRc Hp).
      apply bool_decide_eq_false_2. unfold Q. lia.
    + eexists. split; [apply lookup_insert_eq|].
      by rewrite routine_normalize_title, priority_normalize_title.
Qed.

Lemma move_across_and_back_witness :
  dense 1 sample ∧
  ∃ t1 self1,
    RoutineItem_save (mkItem (Some 2) (item 2 "B" 1)) sample = Committed (t1, self1) ∧
    ∃ t2 self2',
      RoutineItem_save (mkItem (Some 2) (item 1 "B" 2)) t1 = Committed (t2, self2') ∧
      (∀ k', k' ≠ 2 → t2 !! k' = sample !! k').
Proof.
  assert (Hd : dense 1 sample) by (apply (bool_decide_unpack _); vm_compute; exact I).
  split; [exact Hd|].
  destruct (move_across_and_back (mkItem (Some 2) (item 2 "B" 1)) sample 2
              (item 1 "B" 2) 1 2 2 Hd eq_refl eq_refl eq_refl eq_refl eq_refl
              ltac:(discriminate)) as (t1 & self1 & Hs & Hback).
  exists t1, self1. split; [exact Hs|].
  destruct (Hback (mkItem (Some 2) (item 1 "B" 2)) eq_refl eq_refl eq_refl)
    as (t2 & self2' & Hs2 & Hrows & _).
  exists t2, self2'. split; [exact Hs2|exact Hrows].
Defined.

End across_and_back.

(** ** Stored titles and routine names *)

Section names.

(** X9. The title a committed save stores is the caller's title trimmed
    and title-cased: it neither begins nor ends with white space, and
    title-casing it again changes nothing. *)
Theorem saved_title_is_normal (self : RoutineItem) (t : Table) t' self' :
  RoutineItem_save self t = Committed (t', self') →
  title (cols self') = str_title (str_strip (title (cols self))) ∧
  (∀ c, str_head (title (cols self')) = Some c → is_space c = false) ∧
  (∀ c, str_last (title (cols self')) = Some c → is_space c = false) ∧
  str_title (title (cols self')) = title (cols self').
Proof.
  intros (k & f1 & R1 & f2 & R2 & _ & _ & _ & Hcols & _)%save_committed_form.
  assert (HT : title (cols self') = str_title (str_strip (title (cols self)))).
  { rewrite Hcols. simpl. unfold normalize_title.
    case_bool_decide as He; [by rewrite He|done]. }
  rewrite HT. split_and!; [done| | |apply title_from_idempotent].
  - intros c (c0 & Hc0 & ->)%title_from_head. by apply (str_strip_head _ c0) in Hc0.
  - intros c (c0 & Hc0 & ->)%title_from_last. by apply (str_strip_last _ c0) in Hc0.
Qed.

Lemma saved_title_is_normal_witness :
  ∃ t' self',
    RoutineItem_save (mkItem None (item 1 "  brush TEETH " 1)) sample
      = Committed (t', self') ∧
    title (cols self') = "Brush Teeth"%string.
Proof.
  destruct (RoutineItem_save (mkItem None (item 1 "  brush TEETH " 1)) sample)
    as [[t' self']|e] eqn:Hs; [|vm_compute in Hs; discriminate Hs].
  exists t', self'. split; [reflexivity|].
  destruct (saved_title_is_normal _ _ _ _ Hs) as (HT & _). exact HT.
Defined.

Lemma str_lower_empty s : str_lower s = EmptyString → s = EmptyString.
Proof. by destruct s. Qed.

(** The normal form only depends on the name up to letter case and
    surrounding white space. *)
Lemma normal_form_up_to_case s1 s2 :
  str_lower (str_strip s1) = str_lower (str_strip s2) →
  str_title (str_strip s1) = str_title (str_strip s2).
Proof.
  intros H. unfold str_title.
  rewrite <- (title_from_lower false (str_strip s1)).
  rewrite <- (title_from_lower false (str_strip s2)). by rewrite H.
Qed.

Lemma routine_saved_name (self : Routine.Instance) :
  Routine.name
    (Routine.cols
       (if bool_decide (Routine.name (Routine.cols self) = EmptyString) then self
        else {| Routine.pk := Routine.pk self;
                Routine.cols :=
                  Routine.set_name
                    (str_title (str_strip (Routine.name (Routine.cols self))))
                    (Routine.cols self) |}))
  = str_title (str_strip (Routine.name (Routine.cols self))).
Proof. case_bool_decide as He; [by rewrite He|done]. Qed.



(** X11. The uniqueness of routine names is up to letter case and
    surrounding white space: saving a routine whose name agrees in that
    way with the stored, normalised name of another routine of the same
    owner is refused. *)
Theorem routine_save_rejects_same_name_up_to_case self t k0 c0 :
  t !! k0 = Some c0 →
  str_title (str_strip (Routine.name c0)) = Routine.name c0 →
  Routine.pk self ≠ Some k0 →
  Routine.user (Routine.cols self) = Routine.user c0 →
  str_lower (str_strip (Routine.name (Routine.cols self)))
    = str_lower (str_strip (Routine.name c0)) →
  Routine.save self t = Routine.IntegrityError.
Proof.
  intros Hk0 Hnorm Hpk Huser Hlow.
  unfold Routine.save. cbv zeta.
  pose proof (routine_saved_name self) as Hname. revert Hname.
  set (self_n := if bool_decide _ then self else _).
  assert (Hpkn : Routine.pk self_n = Routine.pk self)
    by (unfold self_n; by case_bool_decide).
  assert (Husern : Routine.user (Routine.cols self_n)
                   = Routine.user (Routine.cols self))
    by (unfold self_n; by case_bool_decide).
  clearbody self_n. intros Hname. unfold Routine.Model_save.
  rewrite decide_True; [done|].
  exists k0, c0. split; [done|]. split_and!.
  - rewrite Hpkn. congruence.
  - congruence.
  - rewrite Hname, <- Hnorm. symmetry. by apply normal_form_up_to_case.
Qed.

Lemma routine_save_rejects_same_name_up_to_case_witness :
  Routine.save (Routine.mkInstance None (Routine.mkColumns 1 "MORNING routine  " true))
    (<[1 := Routine.mkColumns 1 "Morning Routine" true]> ∅)
  = Routine.IntegrityError.
Proof.
  apply (routine_save_rejects_same_name_up_to_case _ _ 1
           (Routine.mkColumns 1 "Morning Routine" true));
    reflexivity || discriminate.
Defined.

End names.

Section replace.
Implicit Types (t : Table) (c : Columns) (self : RoutineItem).

(** X12. Replacing an item: deleting the item at priority [A] of a densely
    ordered routine and then creating a new item of that routine at
    priority [A] leaves every other stored row exactly as it was before
    the delete, with the new item at [A]. *)
Theorem delete_then_create_restores_others self new t k old R A :
  dense R t →
  pk self = Some k → t !! k = Some old →
  routine old = R → priority old = Some A →
  routine (cols self) = R → priority (cols self) = Some A →
  pk new = None → routine (cols new) = R → priority (cols new) = Some A →
  ∃ t1 t2 new',
    RoutineItem_delete self t = Committed t1 ∧
    RoutineItem_save new t1 = Committed (t2, new') ∧
    (∀ k' c, k' ≠ k → t !! k' = Some c → t2 !! k' = Some c) ∧
    (∃ k2, pk new' = Some k2 ∧ t2 !! k2 = Some (cols new') ∧
           routine (cols new') = R ∧ priority (cols new') = Some A).
Proof.
  intros Hd Hpk Hk HRo HA HRs HAs Hpkn HRn HAn.
  set (t1 := filter_update (λ c, routine_is R c && priority_gt A c) (-1) (delete k t)).
  set (tu := filter_update (λ c, routine_is R c && priority_gte A c) 1 t1).
  exists t1, (<[next_pk tu := cols (normalize_title new)]> tu),
    (mkItem (Some (next_pk tu)) (cols (normalize_title new))).
  split; [by rewrite (delete_table _ _ k A Hpk HAs), HRs|].
  split; [by rewrite (save_create _ _ Hpkn), HAn, HRn|].
  split.
  - intros k' c Hne Hk'.
    assert (Htu : tu !! k' = Some c).
    { unfold tu, t1. rewrite !lookup_filter_update, lookup_delete_ne, Hk' by done.
      simpl. f_equal. apply undo_gap_shift. intros HRc HpA.
      apply Hne. eapply (dense_unique _ _ _ Hd k' c Hk' k old Hk); congruence. }
    rewrite lookup_insert_ne; [done|].
    intros <-. by rewrite next_pk_fresh in Htu.
  - eexists. split; [reflexivity|]. simpl.
    split_and!; [apply lookup_insert_eq| |].
    + by rewrite routine_normalize_title.
    + by rewrite priority_normalize_title.
Qed.

Lemma delete_then_create_restores_others_witness :
  dense 1 sample ∧
  ∃ t1 t2 new',
    RoutineItem_delete (mkItem (Some 2) (item 1 "B" 2)) sample = Committed t1 ∧
    RoutineItem_save (mkItem None (item 1 "E" 2)) t1 = Committed (t2, new') ∧
    t2 !! 3 = Some (item 1 "C" 3).
Proof.
  assert (Hd : dense 1 sample) by (apply (bool_decide_unpack _); vm_compute; exact I).
  split; [exact Hd|].
  destruct (delete_then_create_restores_others
              (mkItem (Some 2) (item 1 "B" 2)) (mkItem None (item 1 "E" 2))
              sample 2 (item 1 "B" 2) 1 2 Hd eq_refl eq_refl eq_refl eq_refl
              eq_refl eq_refl eq_refl eq_refl eq_refl)
    as (t1 & t2 & new' & H1 & H2 & Hrows & _).
  exists t1, t2, new'. split_and!; [exact H1|exact H2|].
  apply Hrows; [discriminate|reflexivity].
Defined.

End replace.
